(** * KoboldOS PTY bridge: a shallow embedding of [Sources/CPty/pty_bridge.c]

    The bridge consists of three C functions, [kobold_forkpty],
    [kobold_pty_resize] and [kobold_init_signal_handlers], which do nothing
    but call into libc and the kernel.  The embedding therefore has three
    layers:

    - the C data the functions compute with (ints, C strings, [struct
      winsize], [struct sigaction]);
    - the functions themselves, written as programs over the system calls
      they issue, in the order of the source;
    - two semantics of such programs: a sequential one that follows one
      process through a call ([run]), and an interleaving one for several
      threads of the host process sharing [pty_mutex] ([Threads.step]). *)

From Stdlib Require Import ZArith Lia Ascii String.
From stdpp Require Import base gmap strings list fin_maps.

Local Open Scope string_scope.
Local Open Scope list_scope.
Local Open Scope Z_scope.

(** ** C integers *)

Definition INT_MIN : Z := -2147483648.
Definition INT_MAX : Z := 2147483647.

(** The values an [int] argument can hold. *)
Definition int_range (z : Z) : Prop := INT_MIN <= z <= INT_MAX.

(** The cast [(unsigned short)z]: the low sixteen bits. *)
Definition to_ushort (z : Z) : Z := Z.land z 65535.

(** ** C strings

    A [string] stands for the bytes of a NUL-terminated C string before the
    terminator. *)

(** [strrchr s c], for [c] other than NUL: the suffix of [s] that starts at
    the last occurrence of [c], or [None] (the null pointer). *)
Fixpoint strrchr (s : string) (c : ascii) : option string :=
  match s with
  | EmptyString => None
  | String a s' =>
      match strrchr s' c with
      | Some p => Some p
      | None => if Ascii.eqb a c then Some s else None
      end
  end.

(** Pointer increment on a [char *] that does not point at the terminator. *)
Definition str_next (p : string) : string :=
  match p with
  | EmptyString => EmptyString
  | String _ p' => p'
  end.

(** The first [n] bytes of a string. *)
Fixpoint str_take (n : nat) (s : string) : string :=
  match n, s with
  | O, _ => EmptyString
  | S _, EmptyString => EmptyString
  | S n', String a s' => String a (str_take n' s')
  end.

(** [snprintf(buf, size, ...)] leaves in [buf] the formatted text cut to
    [size - 1] bytes (and the terminator). [formatted] is the whole text the
    format produces. *)
Definition snprintf (size : nat) (formatted : string) : string :=
  str_take (size - 1) formatted.

(** The digit character of [d], for [0 <= d <= 9]. *)
Definition digit_char (d : Z) : ascii := ascii_of_nat (48 + Z.to_nat d).

(** The decimal digits of a non-negative [n], most significant first.
    [fuel] bounds the number of digits produced. *)
Fixpoint digits_of (fuel : nat) (n : Z) : string :=
  match fuel with
  | O => EmptyString
  | S fuel' =>
      if n <? 10 then String (digit_char n) EmptyString
      else digits_of fuel' (n / 10) +:+ String (digit_char (n mod 10)) EmptyString
  end.

(** What the conversion ["%d"] prints for an [int]: a minus sign for a
    negative number, then the digits of the magnitude. An [int] has at most
    ten digits. *)
Definition format_d (z : Z) : string :=
  if z <? 0 then String "-"%char (digits_of 10 (- z)) else digits_of 10 z.

(** Reading a decimal numeral back, as [atoi] does. *)
Definition digit_value (c : ascii) : Z := Z.of_nat (nat_of_ascii c) - 48.

Fixpoint decimal_from (acc : Z) (s : string) : Z :=
  match s with
  | EmptyString => acc
  | String c s' => decimal_from (10 * acc + digit_value c) s'
  end.

Definition atoi (s : string) : Z :=
  match s with
  | String "-"%char s' => - decimal_from 0 s'
  | _ => decimal_from 0 s
  end.

(** [c] occurs in [s]. *)
Fixpoint str_mem (c : ascii) (s : string) : bool :=
  match s with
  | EmptyString => false
  | String a s' => Ascii.eqb a c || str_mem c s'
  end.

(** A character is a decimal digit; a string is made of digits. *)
Definition is_digit (c : ascii) : bool :=
  (48 <=? nat_of_ascii c)%nat && (nat_of_ascii c <=? 57)%nat.

Fixpoint all_digits (s : string) : bool :=
  match s with
  | EmptyString => true
  | String c s' => is_digit c && all_digits s'
  end.

(** A string of [n] copies of [c]. *)
Fixpoint str_repeat (c : ascii) (n : nat) : string :=
  match n with
  | O => EmptyString
  | S n' => String c (str_repeat c n')
  end.

(** ** Kernel structures *)

(** [struct winsize] of <sys/ioctl.h>; every field is an [unsigned short]. *)
Record winsize := Winsize {
  ws_row : Z;
  ws_col : Z;
  ws_xpixel : Z;
  ws_ypixel : Z
}.

(** [memset(&ws, 0, sizeof(ws))]. *)
Definition winsize_zero : winsize := Winsize 0 0 0 0.

Definition set_ws_row (ws : winsize) (v : Z) : winsize :=
  Winsize v (ws_col ws) (ws_xpixel ws) (ws_ypixel ws).
Definition set_ws_col (ws : winsize) (v : Z) : winsize :=
  Winsize (ws_row ws) v (ws_xpixel ws) (ws_ypixel ws).

(** The signals of <signal.h> on macOS (the platform of <util.h>). *)
Inductive signal :=
| SIGHUP | SIGINT | SIGQUIT | SIGILL | SIGTRAP | SIGABRT | SIGEMT | SIGFPE
| SIGKILL | SIGBUS | SIGSEGV | SIGSYS | SIGPIPE | SIGALRM | SIGTERM | SIGURG
| SIGSTOP | SIGTSTP | SIGCONT | SIGCHLD | SIGTTIN | SIGTTOU | SIGIO | SIGXCPU
| SIGXFSZ | SIGVTALRM | SIGPROF | SIGWINCH | SIGINFO | SIGUSR1 | SIGUSR2.

#[global] Instance signal_eq_dec : EqDecision signal.
Proof. solve_decision. Defined.

Definition signal_number (s : signal) : nat :=
  match s with
  | SIGHUP => 1 | SIGINT => 2 | SIGQUIT => 3 | SIGILL => 4 | SIGTRAP => 5
  | SIGABRT => 6 | SIGEMT => 7 | SIGFPE => 8 | SIGKILL => 9 | SIGBUS => 10
  | SIGSEGV => 11 | SIGSYS => 12 | SIGPIPE => 13 | SIGALRM => 14
  | SIGTERM => 15 | SIGURG => 16 | SIGSTOP => 17 | SIGTSTP => 18
  | SIGCONT => 19 | SIGCHLD => 20 | SIGTTIN => 21 | SIGTTOU => 22
  | SIGIO => 23 | SIGXCPU => 24 | SIGXFSZ => 25 | SIGVTALRM => 26
  | SIGPROF => 27 | SIGWINCH => 28 | SIGINFO => 29 | SIGUSR1 => 30
  | SIGUSR2 => 31
  end%nat.

Definition all_signals : list signal :=
  [SIGHUP; SIGINT; SIGQUIT; SIGILL; SIGTRAP; SIGABRT; SIGEMT; SIGFPE;
   SIGKILL; SIGBUS; SIGSEGV; SIGSYS; SIGPIPE; SIGALRM; SIGTERM; SIGURG;
   SIGSTOP; SIGTSTP; SIGCONT; SIGCHLD; SIGTTIN; SIGTTOU; SIGIO; SIGXCPU;
   SIGXFSZ; SIGVTALRM; SIGPROF; SIGWINCH; SIGINFO; SIGUSR1; SIGUSR2].

Definition signal_of_number (n : nat) : signal :=
  nth (n - 1) all_signals SIGHUP.

#[global] Instance signal_countable : Countable signal :=
  inj_countable' signal_number signal_of_number
    (fun s => match s with
              | SIGHUP | SIGINT | SIGQUIT | SIGILL | SIGTRAP | SIGABRT | SIGEMT
              | SIGFPE | SIGKILL | SIGBUS | SIGSEGV | SIGSYS | SIGPIPE | SIGALRM
              | SIGTERM | SIGURG | SIGSTOP | SIGTSTP | SIGCONT | SIGCHLD
              | SIGTTIN | SIGTTOU | SIGIO | SIGXCPU | SIGXFSZ | SIGVTALRM
              | SIGPROF | SIGWINCH | SIGINFO | SIGUSR1 | SIGUSR2 => eq_refl
              end).

(** The functions of the bridge that are installed as signal handlers, and
    whatever handlers the host application installed itself. *)
Inductive handler_fn :=
| sigchld_handler
| host_handler (id : nat).

(** The values of [sa_handler]. [SIG_DFL] is the null function pointer. *)
Inductive sighandler :=
| SIG_DFL
| SIG_IGN
| SIG_FN (f : handler_fn).

(** The [sa_flags] bits of <signal.h> on macOS. *)
Definition SA_ONSTACK : Z := 1.
Definition SA_RESTART : Z := 2.
Definition SA_RESETHAND : Z := 4.
Definition SA_NOCLDSTOP : Z := 8.
Definition SA_NODEFER : Z := 16.
Definition SA_NOCLDWAIT : Z := 32.
Definition SA_SIGINFO : Z := 64.

Record sigaction_t := Sigaction_t {
  sa_handler : sighandler;
  sa_mask : gset signal;
  sa_flags : Z
}.

(** [memset(&sa, 0, sizeof(sa))]. *)
Definition sigaction_zero : sigaction_t := Sigaction_t SIG_DFL ∅ 0.

Definition set_sa_handler (sa : sigaction_t) (h : sighandler) : sigaction_t :=
  Sigaction_t h (sa_mask sa) (sa_flags sa).
(** [sigemptyset(&sa.sa_mask)]. *)
Definition sigemptyset (sa : sigaction_t) : sigaction_t :=
  Sigaction_t (sa_handler sa) ∅ (sa_flags sa).
Definition set_sa_flags (sa : sigaction_t) (f : Z) : sigaction_t :=
  Sigaction_t (sa_handler sa) (sa_mask sa) f.

(** [SIGKILL] and [SIGSTOP] cannot be caught, blocked or ignored. *)
Definition uncatchable (s : signal) : bool :=
  match s with
  | SIGKILL | SIGSTOP => true
  | _ => false
  end.

(** ** Programs over system calls *)

(** The libc and kernel entry points the bridge calls. The mutex calls
    always name [pty_mutex], the one static mutex of the file. *)
Inductive syscall :=
| Pthread_mutex_lock
| Pthread_mutex_unlock
| Forkpty (winp : winsize)
| Setenv (name value : string) (overwrite : Z)
| Sigaction (signo : signal) (act : sigaction_t)
| Execl (path : string) (argv : list string)
| Exit_ (status : Z)
| Ioctl_TIOCSWINSZ (fd : Z) (ws : winsize).

(** What a call hands back to the program. [forkpty] returns a pid and
    writes the master descriptor through its first argument only in the
    parent of a successful fork; [_exit] does not return. *)
Definition result (c : syscall) : Type :=
  match c with
  | Pthread_mutex_lock | Pthread_mutex_unlock => unit
  | Forkpty _ => (Z * option Z)%type
  | Setenv _ _ _ | Sigaction _ _ | Execl _ _ | Ioctl_TIOCSWINSZ _ _ => Z
  | Exit_ _ => Empty_set
  end.

Inductive prog (R : Type) : Type :=
| Ret (r : R)
| Call (c : syscall) (k : result c -> prog R).

Arguments Ret {R} r.
Arguments Call {R} c k.

Fixpoint bind {A B : Type} (p : prog A) (f : A -> prog B) : prog B :=
  match p with
  | Ret a => f a
  | Call c k => Call c (fun x => bind (k x) f)
  end.

#[global] Instance prog_ret : MRet prog := @Ret.
#[global] Instance prog_bind : MBind prog := fun A B f p => bind p f.

Definition pthread_mutex_lock : prog unit := Call Pthread_mutex_lock Ret.
Definition pthread_mutex_unlock : prog unit := Call Pthread_mutex_unlock Ret.
Definition setenv (name value : string) (overwrite : Z) : prog Z :=
  Call (Setenv name value overwrite) Ret.
Definition sigaction (signo : signal) (act : sigaction_t) : prog Z :=
  Call (Sigaction signo act) Ret.
Definition execl (path : string) (argv : list string) : prog Z :=
  Call (Execl path argv) Ret.
Definition _exit {R : Type} (status : Z) : prog R :=
  Call (Exit_ status) (fun e => match e with end).
Definition ioctl_TIOCSWINSZ (fd : Z) (ws : winsize) : prog Z :=
  Call (Ioctl_TIOCSWINSZ fd ws) Ret.

(** [forkpty(&master_fd, NULL, NULL, &ws)]: returns the pid together with
    the content of [master_fd] after the call. *)
Definition forkpty (master_fd : Z) (ws : winsize) : prog (Z * Z) :=
  Call (Forkpty ws) (fun r => Ret (r.1, default master_fd r.2)).

(** ** The functions of [pty_bridge.c] *)

(** [kobold_forkpty]. [child_pid] is the content of the caller's cell
    [*child_pid] at the call; the result pairs the returned [int] with the
    content of that cell at the return. *)
Definition kobold_forkpty (child_pid : Z) (shell_path : string) (rows cols : Z)
  : prog (Z * Z) :=
  let ws := winsize_zero in
  let ws := set_ws_row ws (to_ushort rows) in
  let ws := set_ws_col ws (to_ushort cols) in
  pthread_mutex_lock;;
  let master_fd := -1 in
  '(pid, master_fd) ← forkpty master_fd ws;
  if pid <? 0 then
    pthread_mutex_unlock;;
    Ret (-1, child_pid)
  else if pid =? 0 then
    pthread_mutex_unlock;;
    setenv "TERM" "xterm-256color" 1;;
    setenv "LANG" "de_DE.UTF-8" 1;;
    setenv "COLORTERM" "truecolor" 1;;
    let cols_str := snprintf 32 (format_d cols) in
    let rows_str := snprintf 32 (format_d rows) in
    setenv "COLUMNS" cols_str 1;;
    setenv "LINES" rows_str 1;;
    let shell_name :=
      match strrchr shell_path "/" with
      | Some p => str_next p
      | None => shell_path
      end in
    let login_arg := snprintf 256 ("-" +:+ shell_name) in
    let sa := sigaction_zero in
    let sa := set_sa_handler sa SIG_DFL in
    let sa := sigemptyset sa in
    let sa := set_sa_flags sa 0 in
    sigaction SIGINT sa;;
    sigaction SIGQUIT sa;;
    sigaction SIGTSTP sa;;
    sigaction SIGPIPE sa;;
    sigaction SIGCHLD sa;;
    sigaction SIGHUP sa;;
    sigaction SIGTERM sa;;
    execl shell_path [login_arg];;
    _exit 127
  else
    let child_pid := pid in
    pthread_mutex_unlock;;
    Ret (master_fd, child_pid).

(** [kobold_pty_resize]. *)
Definition kobold_pty_resize (master_fd rows cols : Z) : prog Z :=
  let ws := winsize_zero in
  let ws := set_ws_row ws (to_ushort rows) in
  let ws := set_ws_col ws (to_ushort cols) in
  pthread_mutex_lock;;
  r ← ioctl_TIOCSWINSZ master_fd ws;
  if r <? 0 then
    pthread_mutex_unlock;;
    Ret (-1)
  else
    pthread_mutex_unlock;;
    Ret 0.

(** [kobold_init_signal_handlers]. *)
Definition kobold_init_signal_handlers : prog unit :=
  let sa := sigaction_zero in
  let sa := set_sa_handler sa (SIG_FN sigchld_handler) in
  let sa := sigemptyset sa in
  let sa := set_sa_flags sa (Z.lor SA_RESTART SA_NOCLDSTOP) in
  sigaction SIGCHLD sa;;
  Ret tt.

(** ** Sequential semantics: one process through a call *)

(** The state of a process that the calls above read or change. *)
Record proc := Proc {
  pty_mutex : bool;                  (* [pty_mutex] is locked *)
  environ : gmap string string;      (* the environment *)
  sigtable : gmap signal sigaction_t; (* signal actions installed by [sigaction] *)
  ptys : gmap Z winsize;             (* open PTY masters and their window sizes *)
  children : gset Z;                 (* pids of the child processes *)
  atexit_fns : list nat              (* cleanup handlers registered with [atexit] *)
}.

Definition set_pty_mutex (st : proc) (b : bool) : proc :=
  Proc b (environ st) (sigtable st) (ptys st) (children st) (atexit_fns st).
Definition set_environ (st : proc) (e : gmap string string) : proc :=
  Proc (pty_mutex st) e (sigtable st) (ptys st) (children st) (atexit_fns st).
Definition set_sigtable (st : proc) (t : gmap signal sigaction_t) : proc :=
  Proc (pty_mutex st) (environ st) t (ptys st) (children st) (atexit_fns st).
Definition set_ptys (st : proc) (p : gmap Z winsize) : proc :=
  Proc (pty_mutex st) (environ st) (sigtable st) p (children st) (atexit_fns st).
Definition set_children (st : proc) (c : gset Z) : proc :=
  Proc (pty_mutex st) (environ st) (sigtable st) (ptys st) c (atexit_fns st).

(** What [forkpty] does when it is called: it fails, or it succeeds and the
    process followed is the parent (with the pid of the child and the new
    master descriptor), or it succeeds and the process followed is the
    child. *)
Inductive forkpty_outcome :=
| ForkptyError
| ForkptyParent (pid master : Z)
| ForkptyChild.

(** The choices of the system during a call. Each function of the bridge
    calls [forkpty] and [execl] at most once, so one choice for each is
    enough. *)
Record oracle := Oracle {
  o_forkpty : forkpty_outcome;
  o_exec_ok : bool                   (* [execl] finds and starts the file *)
}.

(** [forkpty(3)]: in the parent of a successful fork the pid of the child is
    positive and the master descriptor is not negative. *)
Definition forkpty_contract (o : oracle) : Prop :=
  match o_forkpty o with
  | ForkptyParent pid master => 0 < pid /\ 0 <= master
  | _ => True
  end.

(** How a call can end the run of the program. *)
Inductive stop :=
| StopReplaced (path : string) (argv : list string)
| StopExited (status : Z) (ran : list nat)
| StopDeadlock
| StopUndefined.

(** The effect of one call on the process, and its result or the way it
    ends the program.
    - Locking [pty_mutex] while the process holds it never returns;
      unlocking it while it is not locked is undefined.
    - A failing [forkpty] leaves no child and no descriptor; in the parent
      the new master has the window size given; the child starts with a copy
      of the parent's memory and descriptors and has no children.
    - [setenv] with a non-zero [overwrite] replaces the value.
    - [sigaction] rejects [SIGKILL] and [SIGSTOP].
    - [execl] returns, with -1, only if it fails.
    - [_exit] ends the process at once: no [atexit] function runs.
    - The [TIOCSWINSZ] request sets the whole window size of an open PTY
      master, and fails on any other descriptor. *)
Definition sys (o : oracle) (c : syscall) (st : proc) : proc * (result c + stop) :=
  match c return proc * (result c + stop) with
  | Pthread_mutex_lock =>
      if pty_mutex st then (st, inr StopDeadlock)
      else (set_pty_mutex st true, inl tt)
  | Pthread_mutex_unlock =>
      if pty_mutex st then (set_pty_mutex st false, inl tt)
      else (st, inr StopUndefined)
  | Forkpty winp =>
      match o_forkpty o with
      | ForkptyError => (st, inl (-1, None))
      | ForkptyParent pid master =>
          (set_children (set_ptys st (<[master := winp]> (ptys st)))
                        ({[pid]} ∪ children st),
           inl (pid, Some master))
      | ForkptyChild => (set_children st ∅, inl (0, None))
      end
  | Setenv name value overwrite =>
      if (overwrite =? 0) && bool_decide (is_Some (environ st !! name))
      then (st, inl 0)
      else (set_environ st (<[name := value]> (environ st)), inl 0)
  | Sigaction signo act =>
      if uncatchable signo then (st, inl (-1))
      else (set_sigtable st (<[signo := act]> (sigtable st)), inl 0)
  | Execl path argv =>
      if o_exec_ok o then (st, inr (StopReplaced path argv))
      else (st, inl (-1))
  | Exit_ status => (st, inr (StopExited status []))
  | Ioctl_TIOCSWINSZ fd ws =>
      if bool_decide (is_Some (ptys st !! fd))
      then (set_ptys st (<[fd := ws]> (ptys st)), inl 0)
      else (st, inl (-1))
  end.

(** How the run of a program ends. *)
Inductive outcome (R : Type) :=
| Returned (r : R)
| Stopped (s : stop).

Arguments Returned {R} r.
Arguments Stopped {R} s.

(** The run of a program from a state: how it ends, the final state, and
    the calls issued, in order. *)
Fixpoint run {R : Type} (o : oracle) (p : prog R) (st : proc)
  : outcome R * proc * list syscall :=
  match p with
  | Ret r => (Returned r, st, [])
  | Call c k =>
      match sys o c st with
      | (st', inl x) =>
          let '(out, st'', tr) := run o (k x) st' in (out, st'', c :: tr)
      | (st', inr s) => (Stopped s, st', [c])
      end
  end.

Definition run_outcome {R} (o : oracle) (p : prog R) (st : proc) : outcome R :=
  (run o p st).1.1.
Definition run_state {R} (o : oracle) (p : prog R) (st : proc) : proc :=
  (run o p st).1.2.
Definition run_trace {R} (o : oracle) (p : prog R) (st : proc) : list syscall :=
  (run o p st).2.

(** A host process before any call of the bridge. *)
Definition proc0 : proc :=
  Proc false {[ "TERM" := "dumb"; "HOME" := "/Users/kobold" ]}
       {[ SIGINT := Sigaction_t (SIG_FN (host_handler 0)) ∅ 0;
          SIGPIPE := Sigaction_t SIG_IGN ∅ 0 ]}
       ∅ ∅ [7%nat].

(** ** What the runs are compared with *)

(** The window size both functions hand to the kernel. *)
Definition winsize_arg (rows cols : Z) : winsize :=
  Winsize (to_ushort rows) (to_ushort cols) 0 0.

(** The name the child passes as [argv[0]]. *)
Definition shell_name (shell_path : string) : string :=
  match strrchr shell_path "/" with
  | Some p => str_next p
  | None => shell_path
  end.

Definition login_arg (shell_path : string) : string :=
  snprintf 256 ("-" +:+ shell_name shell_path).

(** The environment of the child after its five [setenv] calls. *)
Definition child_environ (rows cols : Z) (e : gmap string string)
  : gmap string string :=
  <["LINES" := snprintf 32 (format_d rows)]>
    (<["COLUMNS" := snprintf 32 (format_d cols)]>
      (<["COLORTERM" := "truecolor"]>
        (<["LANG" := "de_DE.UTF-8"]>
          (<["TERM" := "xterm-256color"]> e)))).

(** The signals whose action the child resets, in the order of the calls. *)
Definition reset_signals : list signal :=
  [SIGINT; SIGQUIT; SIGTSTP; SIGPIPE; SIGCHLD; SIGHUP; SIGTERM].

Definition child_sigtable (t : gmap signal sigaction_t)
  : gmap signal sigaction_t :=
  foldl (fun t s => <[s := sigaction_zero]> t) t reset_signals.

(** The calls of the child before [execl], and up to and including it. *)
Definition child_setup_calls (rows cols : Z) : list syscall :=
  [Pthread_mutex_lock; Forkpty (winsize_arg rows cols); Pthread_mutex_unlock;
   Setenv "TERM" "xterm-256color" 1; Setenv "LANG" "de_DE.UTF-8" 1;
   Setenv "COLORTERM" "truecolor" 1;
   Setenv "COLUMNS" (snprintf 32 (format_d cols)) 1;
   Setenv "LINES" (snprintf 32 (format_d rows)) 1]
  ++ map (fun s => Sigaction s sigaction_zero) reset_signals.

Definition child_calls (shell_path : string) (rows cols : Z) : list syscall :=
  child_setup_calls rows cols ++ [Execl shell_path [login_arg shell_path]].

(** The [execl] calls of a run, each with its path and argument list. *)
Definition execl_calls (tr : list syscall) : list (string * list string) :=
  omap (fun c => match c with Execl path argv => Some (path, argv) | _ => None end) tr.

(** The [sigaction] calls of a run. *)
Definition sigaction_calls (tr : list syscall) : list (signal * sigaction_t) :=
  omap (fun c => match c with Sigaction s a => Some (s, a) | _ => None end) tr.

(** ** Threads of the host process sharing [pty_mutex] *)

Module Threads.

(** Threads are numbered by their position in the pool. *)
Definition tid := nat.

(** A configuration: the thread that holds [pty_mutex], if any, and what
    remains of the program of each thread. *)
Record config (R : Type) := Config {
  owner : option tid;
  pool : list (prog R)
}.
Arguments Config {R} owner pool.
Arguments owner {R} c.
Arguments pool {R} c.

Definition is_mutex_call (c : syscall) : bool :=
  match c with
  | Pthread_mutex_lock | Pthread_mutex_unlock => true
  | _ => false
  end.

(** The results a call can have in the host process: there [forkpty]
    never returns 0. *)
Definition host_result (c : syscall) : result c -> Prop :=
  match c with
  | Forkpty _ => fun r => r.1 <> 0
  | _ => fun _ => True
  end.

(** One step of one thread. A thread locks the mutex only when it is free
    (it waits otherwise) and unlocks it when it holds it; any other call
    returns some result. *)
Inductive step {R : Type} : config R -> tid * syscall -> config R -> Prop :=
| step_lock t k ths :
    ths !! t = Some (Call Pthread_mutex_lock k) ->
    step (Config None ths) (t, Pthread_mutex_lock)
         (Config (Some t) (<[t := k ()]> ths))
| step_unlock t k ths :
    ths !! t = Some (Call Pthread_mutex_unlock k) ->
    step (Config (Some t) ths) (t, Pthread_mutex_unlock)
         (Config None (<[t := k ()]> ths))
| step_call t c k x h ths :
    ths !! t = Some (Call c k) ->
    is_mutex_call c = false ->
    host_result c x ->
    step (Config h ths) (t, c) (Config h (<[t := k x]> ths)).

(** Executions, with the calls made and the thread that made each. *)
Inductive steps {R : Type} : config R -> list (tid * syscall) -> config R -> Prop :=
| steps_nil cfg : steps cfg [] cfg
| steps_cons cfg1 ev cfg2 tr cfg3 :
    step cfg1 ev cfg2 -> steps cfg2 tr cfg3 -> steps cfg1 (ev :: tr) cfg3.

(** Unlocking [pty_mutex] from a thread that does not hold it is
    undefined behaviour. *)
Definition faulty {R : Type} (cfg : config R) : Prop :=
  exists t k, pool cfg !! t = Some (Call Pthread_mutex_unlock k)
              /\ owner cfg <> Some t.

(** The calls the mutex is there to protect, and its release. *)
Definition needs_lock (c : syscall) : bool :=
  match c with
  | Forkpty _ | Ioctl_TIOCSWINSZ _ _ | Pthread_mutex_unlock => true
  | _ => false
  end.

(** Thread [t] is between its lock and its unlock. *)
Definition in_critical_section {R : Type} (cfg : config R) (t : tid) : Prop :=
  exists c k, pool cfg !! t = Some (Call c k) /\ needs_lock c = true.

(** A trace keeps the locking discipline, starting with [holder] holding
    the mutex: locks and unlocks alternate, each unlock and each protected
    call is made by the thread that locked last. *)
Fixpoint serialized (holder : option tid) (tr : list (tid * syscall)) : bool :=
  match tr with
  | [] => true
  | (t, c) :: tr' =>
      match c with
      | Pthread_mutex_lock =>
          match holder with
          | None => serialized (Some t) tr'
          | Some _ => false
          end
      | Pthread_mutex_unlock =>
          bool_decide (holder = Some t) && serialized None tr'
      | Forkpty _ | Ioctl_TIOCSWINSZ _ _ =>
          bool_decide (holder = Some t) && serialized holder tr'
      | _ => serialized holder tr'
      end
  end.

(** What a call requires of the thread making it: whether it holds the
    mutex. A thread leaves ([execl], [_exit]) only without the mutex. *)
Definition guard (held : bool) (c : syscall) : Prop :=
  match c with
  | Pthread_mutex_lock => held = false
  | Pthread_mutex_unlock | Forkpty _ | Ioctl_TIOCSWINSZ _ _ => held = true
  | Execl _ _ | Exit_ _ => held = false
  | Setenv _ _ _ | Sigaction _ _ => True
  end.

Definition next_held (held : bool) (c : syscall) : bool :=
  match c with
  | Pthread_mutex_lock => true
  | Pthread_mutex_unlock => false
  | _ => held
  end.

(** A program keeps the locking discipline on every path, whatever the
    calls return, when run by a thread that holds the mutex or not
    ([held]); it returns only without the mutex. *)
Fixpoint well_locked {R : Type} (held : bool) (p : prog R) : Prop :=
  match p with
  | Ret _ => held = false
  | Call c k =>
      guard held c /\ forall x : result c, well_locked (next_held held c) (k x)
  end.

(** The programs of the threads that use the bridge: any number of calls
    of its three functions, each followed by anything that depends on its
    result. *)
Inductive bridge_client {R : Type} : prog R -> Prop :=
| client_ret r : bridge_client (Ret r)
| client_forkpty child_pid shell_path rows cols (k : Z * Z -> prog R) :
    (forall r, bridge_client (k r)) ->
    bridge_client (kobold_forkpty child_pid shell_path rows cols ≫= k)
| client_resize master_fd rows cols (k : Z -> prog R) :
    (forall r, bridge_client (k r)) ->
    bridge_client (kobold_pty_resize master_fd rows cols ≫= k)
| client_init (k : unit -> prog R) :
    (forall r, bridge_client (k r)) ->
    bridge_client (kobold_init_signal_handlers ≫= k).

(** Every thread is where the owner field says it is. *)
Definition consistent {R : Type} (cfg : config R) : Prop :=
  forall t p, pool cfg !! t = Some p ->
              well_locked (bool_decide (owner cfg = Some t)) p.

End Threads.

(** The calls on [pty_mutex] in a run. *)
Definition mutex_calls (tr : list syscall) : list syscall :=
  filter (fun c => Threads.is_mutex_call c = true) tr.

(** Two threads, one spawning a shell and one resizing; the second has
    locked the mutex and issued its request. *)
Definition two_threads : list (prog unit) :=
  [kobold_forkpty 0 "/bin/zsh" 24 80 ≫= (fun _ => Ret ());
   kobold_pty_resize 5 40 132 ≫= (fun _ => Ret ())].

(** ** The child reaper *)

Module Reaper.

(** The host process together with those of its children that have
    terminated and have not been waited for, in the order in which the
    kernel reports them. *)
Record host := Host {
  host_proc : proc;
  terminated : list Z
}.

(** [waitpid(-1, NULL, WNOHANG)]: it reaps the first terminated child, which
    then is no child any more, and returns its pid; with nothing to reap it
    returns at once, 0 while the process has children and -1 when it has
    none. The exit status goes nowhere (the second argument is [NULL]). *)
Definition waitpid_nohang (h : host) : Z * host :=
  match terminated h with
  | z :: zs =>
      (z, Host (set_children (host_proc h) (children (host_proc h) ∖ {[z]})) zs)
  | [] =>
      (if decide (children (host_proc h) = ∅) then -1 else 0, h)
  end.

(** [sigchld_handler]: the loop [while (waitpid(-1, NULL, WNOHANG) > 0);].
    [sig] is not used. The result is the state the handler leaves and the
    values [waitpid] returned, in order; it is [None] when [fuel] iterations
    did not end the loop. *)
Fixpoint sigchld_handler (fuel : nat) (sig : Z) (h : host)
  : option (host * list Z) :=
  match fuel with
  | O => None
  | S fuel' =>
      let '(r, h') := waitpid_nohang h in
      if r >? 0 then
        match sigchld_handler fuel' sig h' with
        | Some (h'', rs) => Some (h'', r :: rs)
        | None => None
        end
      else Some (h', [r])
  end.

End Reaper.

(** ** Threads that go on *)

(** A call that ends the thread that makes it, and the process with it. *)
Definition leaves (c : syscall) : bool :=
  match c with
  | Execl _ _ | Exit_ _ => true
  | _ => false
  end.

(** A program that, run by a thread of the host process, never comes to
    [execl] or [_exit], whatever its calls return there. *)
Fixpoint host_live {R : Type} (p : prog R) : Prop :=
  match p with
  | Ret _ => True
  | Call c k =>
      leaves c = false
      /\ forall x : result c, Threads.host_result c x -> host_live (k x)
  end.

(** The mutex is held by a thread of the pool, and every thread keeps the
    locking discipline and goes on. *)
Definition sound {R : Type} (cfg : Threads.config R) : Prop :=
  Threads.consistent cfg
  /\ (forall t, Threads.owner cfg = Some t -> is_Some (Threads.pool cfg !! t))
  /\ (forall t p, Threads.pool cfg !! t = Some p -> host_live p).

(** * Properties *)

(** ** The model on small inputs *)

Example to_ushort_examples :
  to_ushort 24 = 24 /\ to_ushort 65536 = 0 /\ to_ushort 65537 = 1
  /\ to_ushort (-1) = 65535.
Proof. by vm_compute. Qed.

Example strrchr_examples :
  strrchr "/bin/zsh" "/" = Some "/zsh" /\ strrchr "zsh" "/" = None
  /\ strrchr "/usr/local/bin/" "/" = Some "/".
Proof. by vm_compute. Qed.

Example format_d_examples :
  format_d 0 = "0" /\ format_d 80 = "80" /\ format_d (-7) = "-7"
  /\ format_d 2147483647 = "2147483647"
  /\ format_d (-2147483648) = "-2147483648".
Proof. by vm_compute. Qed.

Example snprintf_examples :
  snprintf 32 "80" = "80" /\ snprintf 4 "-bash" = "-ba".
Proof. by vm_compute. Qed.

Example run_forkpty_parent_zsh :
  run (Oracle (ForkptyParent 4242 5) true) (kobold_forkpty 0 "/bin/zsh" 24 80) proc0
  = (Returned (5, 4242),
     Proc false (environ proc0) (sigtable proc0)
          {[ 5 := Winsize 24 80 0 0 ]} {[ 4242 ]} [7%nat],
     [Pthread_mutex_lock; Forkpty (Winsize 24 80 0 0); Pthread_mutex_unlock]).
Proof. by vm_compute. Qed.

Example run_forkpty_error_zsh :
  run (Oracle ForkptyError true) (kobold_forkpty 0 "/bin/zsh" 24 80) proc0
  = (Returned (-1, 0), proc0,
     [Pthread_mutex_lock; Forkpty (Winsize 24 80 0 0); Pthread_mutex_unlock]).
Proof. by vm_compute. Qed.

Example run_forkpty_child_exec_fails :
  run_outcome (Oracle ForkptyChild false)
              (kobold_forkpty 0 "/nonexistent/path" 24 80) proc0
  = Stopped (StopExited 127 []).
Proof. by vm_compute. Qed.

Example run_forkpty_child_echo_shell :
  run_outcome (Oracle ForkptyChild true)
              (kobold_forkpty 0 "/bin/echo-shell" 24 80) proc0
  = Stopped (StopReplaced "/bin/echo-shell" ["-echo-shell"]).
Proof. by vm_compute. Qed.

Example run_resize_closed_descriptor :
  run (Oracle ForkptyError true) (kobold_pty_resize 5 40 132) proc0
  = (Returned (-1), proc0,
     [Pthread_mutex_lock; Ioctl_TIOCSWINSZ 5 (Winsize 40 132 0 0);
      Pthread_mutex_unlock]).
Proof. by vm_compute. Qed.

Example run_forkpty_child_zsh :
  run (Oracle ForkptyChild true) (kobold_forkpty 0 "/bin/zsh" 24 80) proc0
  = (Stopped (StopReplaced "/bin/zsh" ["-zsh"]),
     Proc false
       {[ "TERM" := "xterm-256color"; "HOME" := "/Users/kobold";
          "LANG" := "de_DE.UTF-8"; "COLORTERM" := "truecolor";
          "COLUMNS" := "80"; "LINES" := "24" ]}
       {[ SIGINT := sigaction_zero; SIGPIPE := sigaction_zero;
          SIGQUIT := sigaction_zero; SIGTSTP := sigaction_zero;
          SIGCHLD := sigaction_zero; SIGHUP := sigaction_zero;
          SIGTERM := sigaction_zero ]}
       ∅ ∅ [7%nat],
     [Pthread_mutex_lock; Forkpty (Winsize 24 80 0 0); Pthread_mutex_unlock;
      Setenv "TERM" "xterm-256color" 1; Setenv "LANG" "de_DE.UTF-8" 1;
      Setenv "COLORTERM" "truecolor" 1; Setenv "COLUMNS" "80" 1;
      Setenv "LINES" "24" 1;
      Sigaction SIGINT sigaction_zero; Sigaction SIGQUIT sigaction_zero;
      Sigaction SIGTSTP sigaction_zero; Sigaction SIGPIPE sigaction_zero;
      Sigaction SIGCHLD sigaction_zero; Sigaction SIGHUP sigaction_zero;
      Sigaction SIGTERM sigaction_zero;
      Execl "/bin/zsh" ["-zsh"]]).
Proof. vm_compute. reflexivity. Qed.

(** ** Facts about the C data *)

Lemma to_ushort_mod (z : Z) : to_ushort z = z mod 65536.
Proof.
  unfold to_ushort. change 65535 with (Z.ones 16).
  rewrite Z.land_ones by lia. reflexivity.
Qed.

Lemma to_ushort_range (z : Z) : 0 <= to_ushort z < 65536.
Proof. rewrite to_ushort_mod. apply Z.mod_pos_bound. lia. Qed.

Lemma to_ushort_small (z : Z) : 0 <= z < 65536 -> to_ushort z = z.
Proof. intros Hz. rewrite to_ushort_mod. apply Z.mod_small. exact Hz. Qed.

Lemma append_cons (a : ascii) (s t : string) :
  String a s +:+ t = String a (s +:+ t).
Proof. reflexivity. Qed.

Lemma append_nil (t : string) : "" +:+ t = t.
Proof. reflexivity. Qed.

Lemma length_append (s t : string) :
  String.length (s +:+ t) = (String.length s + String.length t)%nat.
Proof.
  induction s as [|a s IH]; [reflexivity|].
  rewrite append_cons. simpl. by rewrite IH.
Qed.

Lemma strrchr_absent (s : string) (c : ascii) :
  str_mem c s = false -> strrchr s c = None.
Proof.
  induction s as [|a s IH]; simpl; [done|].
  intros [Ha Hs]%orb_false_iff. by rewrite IH, Ha.
Qed.

Lemma strrchr_present (s : string) (c : ascii) :
  str_mem c s = true -> is_Some (strrchr s c).
Proof.
  induction s as [|a s IH]; simpl; [done|].
  destruct (strrchr s c) eqn:Hr; [by eauto|].
  destruct (Ascii.eqb a c) eqn:Ha; [by eauto|].
  simpl. intros Hs. destruct (IH Hs) as [? ?]. discriminate.
Qed.

(** The last occurrence: nothing after it is [c]. *)
Lemma strrchr_last (dir name : string) (c : ascii) :
  str_mem c name = false ->
  strrchr (dir +:+ String c name) c = Some (String c name).
Proof.
  intros Hname. induction dir as [|a dir IH].
  - rewrite append_nil. simpl.
    by rewrite (strrchr_absent _ _ Hname), Ascii.eqb_refl.
  - rewrite append_cons. simpl. by rewrite IH.
Qed.

Lemma str_take_all (n : nat) (s : string) :
  (String.length s <= n)%nat -> str_take n s = s.
Proof.
  revert n. induction s as [|a s IH]; intros [|n] Hn; simpl in *; try done; try lia.
  f_equal. apply IH. lia.
Qed.

Lemma str_take_length (n : nat) (s : string) :
  String.length (str_take n s) = (n `min` String.length s)%nat.
Proof.
  revert n. induction s as [|a s IH]; intros [|n]; simpl; try done.
  by rewrite IH.
Qed.

Lemma snprintf_fits (size : nat) (s : string) :
  (String.length s < size)%nat -> snprintf size s = s.
Proof. intros Hs. apply str_take_all. lia. Qed.

Lemma snprintf_length (size : nat) (s : string) :
  String.length (snprintf size s) = ((size - 1) `min` String.length s)%nat.
Proof. apply str_take_length. Qed.

(** *** Decimal numerals *)

Arguments digit_char : simpl never.
Arguments digit_value : simpl never.
Arguments is_digit : simpl never.

Lemma digit_cases (d : Z) :
  0 <= d < 10 ->
  d = 0 \/ d = 1 \/ d = 2 \/ d = 3 \/ d = 4 \/ d = 5 \/ d = 6 \/ d = 7 \/ d = 8 \/ d = 9.
Proof. lia. Qed.

Lemma digit_char_value (d : Z) : 0 <= d < 10 -> digit_value (digit_char d) = d.
Proof.
  intros Hd. destruct (digit_cases d Hd) as [->|[->|[->|[->|[->|[->|[->|[->|[->| ->]]]]]]]]];
    reflexivity.
Qed.

Lemma digit_char_is_digit (d : Z) : 0 <= d < 10 -> is_digit (digit_char d) = true.
Proof.
  intros Hd. destruct (digit_cases d Hd) as [->|[->|[->|[->|[->|[->|[->|[->|[->| ->]]]]]]]]];
    reflexivity.
Qed.

Lemma all_digits_app (s t : string) :
  all_digits (s +:+ t) = all_digits s && all_digits t.
Proof.
  induction s as [|a s IH]; [reflexivity|].
  rewrite append_cons. simpl. by rewrite IH, andb_assoc.
Qed.

Lemma digits_of_all_digits (fuel : nat) (n : Z) :
  0 <= n -> all_digits (digits_of fuel n) = true.
Proof.
  revert n. induction fuel as [|fuel IH]; intros n Hn; simpl; [done|].
  destruct (Z.ltb_spec n 10).
  - cbn [all_digits]. rewrite digit_char_is_digit; [done|lia].
  - rewrite all_digits_app, IH by (apply Z.div_pos; lia).
    cbn [all_digits]. rewrite digit_char_is_digit; [done|].
    apply Z.mod_pos_bound. lia.
Qed.

(** A numeral of [n < 10 ^ k] has at most [k] digits, whatever the fuel. *)
Lemma digits_of_length (fuel : nat) (n : Z) (k : nat) :
  (1 <= k)%nat -> 0 <= n < 10 ^ Z.of_nat k ->
  (String.length (digits_of fuel n) <= k)%nat.
Proof.
  revert n k. induction fuel as [|fuel IH]; intros n k Hk Hn; simpl; [lia|].
  destruct (Z.ltb_spec n 10); simpl; [lia|].
  rewrite length_append. simpl.
  destruct k as [|k]; [lia|].
  assert (1 <= k)%nat as Hk'.
  { destruct k; [|lia]. simpl in Hn. lia. }
  assert (String.length (digits_of fuel (n / 10)) <= k)%nat; [|lia].
  apply IH; [done|]. split; [apply Z.div_pos; lia|].
  apply Z.div_lt_upper_bound; [lia|].
  replace (Z.of_nat (S k)) with (Z.succ (Z.of_nat k)) in Hn by lia.
  rewrite Z.pow_succ_r in Hn by lia. lia.
Qed.

Lemma decimal_from_app (acc : Z) (s : string) (c : ascii) :
  decimal_from acc (s +:+ String c "") = 10 * decimal_from acc s + digit_value c.
Proof.
  revert acc. induction s as [|a s IH]; intros acc; [reflexivity|].
  rewrite append_cons. simpl. apply IH.
Qed.

(** With fuel for all its digits, the numeral of [n] reads back as [n]. *)
Lemma digits_of_value (fuel : nat) (n : Z) :
  0 <= n < 10 ^ Z.of_nat fuel -> decimal_from 0 (digits_of fuel n) = n.
Proof.
  revert n. induction fuel as [|fuel IH]; intros n Hn.
  - change (10 ^ Z.of_nat 0) with 1 in Hn. cbn [digits_of decimal_from]. lia.
  - cbn [digits_of]. destruct (Z.ltb_spec n 10).
    + cbn [decimal_from]. rewrite digit_char_value; lia.
    + rewrite decimal_from_app, IH, digit_char_value.
      * pose proof (Z.div_mod n 10). lia.
      * apply Z.mod_pos_bound. lia.
      * split; [apply Z.div_pos; lia|].
        apply Z.div_lt_upper_bound; [lia|].
        replace (Z.of_nat (S fuel)) with (Z.succ (Z.of_nat fuel)) in Hn by lia.
        rewrite Z.pow_succ_r in Hn by lia. lia.
Qed.

Lemma atoi_digits (s : string) :
  all_digits s = true -> atoi s = decimal_from 0 s.
Proof.
  destruct s as [|c s]; [reflexivity|]. simpl all_digits.
  intros [Hc _]%andb_true_iff. revert Hc.
  destruct c as [[] [] [] [] [] [] [] []]; try discriminate; reflexivity.
Qed.

Lemma format_d_length (z : Z) :
  int_range z -> (String.length (format_d z) <= 11)%nat.
Proof.
  unfold int_range, INT_MIN, INT_MAX, format_d. intros Hz.
  destruct (Z.ltb_spec z 0); simpl.
  - pose proof (digits_of_length 10 (- z) 10). simpl in *. lia.
  - pose proof (digits_of_length 10 z 10). simpl in *. lia.
Qed.

Lemma atoi_format_d (z : Z) : int_range z -> atoi (format_d z) = z.
Proof.
  unfold int_range, INT_MIN, INT_MAX, format_d. intros Hz.
  destruct (Z.ltb_spec z 0).
  - change (atoi (String "-" (digits_of 10 (- z))))
      with (- decimal_from 0 (digits_of 10 (- z))).
    rewrite digits_of_value; simpl; lia.
  - rewrite atoi_digits by (apply digits_of_all_digits; lia).
    apply digits_of_value. simpl. lia.
Qed.

(** The 32-byte buffers hold every ["%d"] of an [int]. *)
Lemma snprintf_format_d (z : Z) :
  int_range z -> snprintf 32 (format_d z) = format_d z.
Proof.
  intros Hz. apply snprintf_fits. pose proof (format_d_length z Hz). lia.
Qed.

(** ** The runs of the three functions *)

Arguments format_d : simpl never.
Arguments snprintf : simpl never.
Arguments strrchr : simpl never.
Arguments to_ushort : simpl never.

Lemma run_forkpty_child o child_pid shell_path rows cols st :
  o_forkpty o = ForkptyChild -> pty_mutex st = false ->
  run o (kobold_forkpty child_pid shell_path rows cols) st =
    (Stopped (if o_exec_ok o
              then StopReplaced shell_path [login_arg shell_path]
              else StopExited 127 []),
     Proc false (child_environ rows cols (environ st))
          (child_sigtable (sigtable st)) (ptys st) ∅ (atexit_fns st),
     child_calls shell_path rows cols
       ++ (if o_exec_ok o then [] else [Exit_ 127])).
Proof.
  intros Ho Hm. destruct st as [m e t p c a], o as [f x].
  simpl in Ho, Hm. subst f m.
  unfold kobold_forkpty. destruct x; reflexivity.
Qed.

Lemma run_forkpty_error o child_pid shell_path rows cols st :
  o_forkpty o = ForkptyError -> pty_mutex st = false ->
  run o (kobold_forkpty child_pid shell_path rows cols) st =
    (Returned (-1, child_pid), st,
     [Pthread_mutex_lock; Forkpty (winsize_arg rows cols); Pthread_mutex_unlock]).
Proof.
  intros Ho Hm. destruct st as [m e t p c a], o as [f x].
  simpl in Ho, Hm. subst f m. reflexivity.
Qed.

Lemma run_forkpty_parent o pid master child_pid shell_path rows cols st :
  o_forkpty o = ForkptyParent pid master -> pty_mutex st = false ->
  run o (kobold_forkpty child_pid shell_path rows cols) st =
    if pid <? 0 then
      (Returned (-1, child_pid),
       Proc false (environ st) (sigtable st)
            (<[master := winsize_arg rows cols]> (ptys st))
            ({[pid]} ∪ children st) (atexit_fns st),
       [Pthread_mutex_lock; Forkpty (winsize_arg rows cols);
        Pthread_mutex_unlock])
    else if pid =? 0 then
      (Stopped (if o_exec_ok o
                then StopReplaced shell_path [login_arg shell_path]
                else StopExited 127 []),
       Proc false (child_environ rows cols (environ st))
            (child_sigtable (sigtable st))
            (<[master := winsize_arg rows cols]> (ptys st))
            ({[pid]} ∪ children st) (atexit_fns st),
       child_calls shell_path rows cols
         ++ (if o_exec_ok o then [] else [Exit_ 127]))
    else
      (Returned (master, pid),
       Proc false (environ st) (sigtable st)
            (<[master := winsize_arg rows cols]> (ptys st))
            ({[pid]} ∪ children st) (atexit_fns st),
       [Pthread_mutex_lock; Forkpty (winsize_arg rows cols);
        Pthread_mutex_unlock]).
Proof.
  intros Ho Hm. destruct st as [m e t p c a], o as [f x].
  simpl in Ho, Hm. subst f m.
  unfold kobold_forkpty. cbn -[Z.ltb Z.eqb].
  destruct (pid <? 0); [reflexivity|].
  destruct (pid =? 0); [destruct x|]; reflexivity.
Qed.

Lemma run_resize o master_fd rows cols st :
  pty_mutex st = false ->
  run o (kobold_pty_resize master_fd rows cols) st =
    if bool_decide (is_Some (ptys st !! master_fd)) then
      (Returned 0,
       set_ptys st (<[master_fd := winsize_arg rows cols]> (ptys st)),
       [Pthread_mutex_lock; Ioctl_TIOCSWINSZ master_fd (winsize_arg rows cols);
        Pthread_mutex_unlock])
    else
      (Returned (-1), st,
       [Pthread_mutex_lock; Ioctl_TIOCSWINSZ master_fd (winsize_arg rows cols);
        Pthread_mutex_unlock]).
Proof.
  intros Hm. destruct st as [m e t p c a]. simpl in Hm. subst m.
  unfold kobold_pty_resize. cbn.
  destruct (bool_decide (is_Some (p !! master_fd))); reflexivity.
Qed.

Lemma run_init_signal_handlers o st :
  run o kobold_init_signal_handlers st =
    (Returned (),
     set_sigtable st
       (<[SIGCHLD := Sigaction_t (SIG_FN sigchld_handler) ∅
                                 (Z.lor SA_RESTART SA_NOCLDSTOP)]> (sigtable st)),
     [Sigaction SIGCHLD (Sigaction_t (SIG_FN sigchld_handler) ∅
                                     (Z.lor SA_RESTART SA_NOCLDSTOP))]).
Proof. reflexivity. Qed.

(** ** Spawning: the parent *)

(** C1. In the parent, and with [forkpty] keeping its contract, a call of
    [kobold_forkpty] returns a master descriptor that is not negative and
    stores a positive child pid in [*child_pid] (the child and the
    descriptor being the ones [forkpty] made), or it returns -1, leaves
    [*child_pid] as it was, and the process has no new child and no new
    descriptor. This holds for every shell path and every size. *)
Theorem kobold_forkpty_parent_result o child_pid shell_path rows cols st :
  forkpty_contract o -> o_forkpty o <> ForkptyChild -> pty_mutex st = false ->
  (exists master pid,
      run_outcome o (kobold_forkpty child_pid shell_path rows cols) st
        = Returned (master, pid)
      /\ 0 <= master /\ 0 < pid
      /\ o_forkpty o = ForkptyParent pid master
      /\ children (run_state o (kobold_forkpty child_pid shell_path rows cols) st)
           = {[pid]} ∪ children st)
  \/ (run_outcome o (kobold_forkpty child_pid shell_path rows cols) st
        = Returned (-1, child_pid)
      /\ o_forkpty o = ForkptyError
      /\ children (run_state o (kobold_forkpty child_pid shell_path rows cols) st)
           = children st
      /\ ptys (run_state o (kobold_forkpty child_pid shell_path rows cols) st)
           = ptys st).
Proof.
  intros Hc Hp Hm. unfold run_outcome, run_state, forkpty_contract in *.
  destruct (o_forkpty o) as [|pid master|] eqn:Ho; [right|left|done].
  - by rewrite (run_forkpty_error _ _ _ _ _ _ Ho Hm).
  - destruct Hc as [Hpid Hmaster].
    rewrite (run_forkpty_parent _ _ _ _ _ _ _ _ Ho Hm).
    destruct (Z.ltb_spec pid 0); [lia|]. destruct (Z.eqb_spec pid 0); [lia|].
    exists master, pid. done.
Qed.

Lemma kobold_forkpty_parent_result_witness :
  forkpty_contract (Oracle (ForkptyParent 4242 5) true)
  /\ ((exists master pid,
      run_outcome (Oracle (ForkptyParent 4242 5) true)
                  (kobold_forkpty 0 "/bin/zsh" 24 80) proc0
        = Returned (master, pid)
      /\ 0 <= master /\ 0 < pid
      /\ o_forkpty (Oracle (ForkptyParent 4242 5) true) = ForkptyParent pid master
      /\ children (run_state (Oracle (ForkptyParent 4242 5) true)
                             (kobold_forkpty 0 "/bin/zsh" 24 80) proc0)
           = {[pid]} ∪ children proc0)
  \/ (run_outcome (Oracle (ForkptyParent 4242 5) true)
                  (kobold_forkpty 0 "/bin/zsh" 24 80) proc0
        = Returned (-1, 0)
      /\ o_forkpty (Oracle (ForkptyParent 4242 5) true) = ForkptyError
      /\ children (run_state (Oracle (ForkptyParent 4242 5) true)
                             (kobold_forkpty 0 "/bin/zsh" 24 80) proc0)
           = children proc0
      /\ ptys (run_state (Oracle (ForkptyParent 4242 5) true)
                         (kobold_forkpty 0 "/bin/zsh" 24 80) proc0)
           = ptys proc0)).
Proof.
  assert (forkpty_contract (Oracle (ForkptyParent 4242 5) true)) as Hc
    by (unfold forkpty_contract; simpl; lia).
  split; [exact Hc|].
  apply (kobold_forkpty_parent_result (Oracle (ForkptyParent 4242 5) true)
           0 "/bin/zsh" 24 80 proc0 Hc); [discriminate | reflexivity].
Defined.

(** ** Spawning: the child *)

(** C3. In the child, when [execl] fails the process ends with status 127:
    the call after the failed [execl] is [_exit(127)] and it is the last,
    the function does not return to its caller, and none of the registered
    [atexit] functions runs. *)
Theorem kobold_forkpty_exec_failure o child_pid shell_path rows cols st :
  o_forkpty o = ForkptyChild -> o_exec_ok o = false -> pty_mutex st = false ->
  run_outcome o (kobold_forkpty child_pid shell_path rows cols) st
    = Stopped (StopExited 127 [])
  /\ exists before argv,
      run_trace o (kobold_forkpty child_pid shell_path rows cols) st
        = before ++ [Execl shell_path argv; Exit_ 127]
      /\ Forall (fun c => forall status, c <> Exit_ status) before.
Proof.
  intros Ho Hx Hm. unfold run_outcome, run_trace.
  rewrite (run_forkpty_child _ _ _ _ _ _ Ho Hm), Hx. split; [done|].
  exists (child_setup_calls rows cols), [login_arg shell_path]. split.
  - unfold child_calls. by rewrite <-app_assoc.
  - unfold child_setup_calls. cbn [map reset_signals app].
    repeat constructor; discriminate.
Qed.

Lemma kobold_forkpty_exec_failure_witness :
  run_outcome (Oracle ForkptyChild false)
              (kobold_forkpty 0 "/nonexistent/path" 24 80) proc0
    = Stopped (StopExited 127 [])
  /\ exists before argv,
      run_trace (Oracle ForkptyChild false)
                (kobold_forkpty 0 "/nonexistent/path" 24 80) proc0
        = before ++ [Execl "/nonexistent/path" argv; Exit_ 127]
      /\ Forall (fun c => forall status, c <> Exit_ status) before.
Proof.
  apply (kobold_forkpty_exec_failure (Oracle ForkptyChild false)
           0 "/nonexistent/path" 24 80 proc0); reflexivity.
Defined.

Lemma execl_calls_child shell_path rows cols (x : bool) :
  execl_calls (child_calls shell_path rows cols ++ (if x then [] else [Exit_ 127]))
  = [(shell_path, [login_arg shell_path])].
Proof. by destruct x. Qed.

Lemma shell_name_last_segment (dir name : string) :
  str_mem "/" name = false -> shell_name (dir +:+ String "/" name) = name.
Proof. intros Hn. unfold shell_name. by rewrite strrchr_last. Qed.

Lemma shell_name_no_separator (shell_path : string) :
  str_mem "/" shell_path = false -> shell_name shell_path = shell_path.
Proof. intros Hn. unfold shell_name. by rewrite strrchr_absent. Qed.

Lemma login_arg_fits (name : string) :
  (String.length name <= 254)%nat -> snprintf 256 ("-" +:+ name) = "-" +:+ name.
Proof. intros Hn. apply snprintf_fits. rewrite length_append. simpl. lia. Qed.

(** C2, as the code has it. In the child, the one [execl] call passes the
    shell path and a single argument: the text of ['-'] followed by the part
    of the path after its last ['/'], cut to the 255 bytes that the buffer
    [login_arg] holds. When that part has at most 254 bytes, the argument is
    the whole text. *)
Theorem kobold_forkpty_login_arg o child_pid dir name rows cols st :
  o_forkpty o = ForkptyChild -> pty_mutex st = false ->
  str_mem "/" name = false ->
  execl_calls
    (run_trace o (kobold_forkpty child_pid (dir +:+ String "/" name) rows cols) st)
    = [(dir +:+ String "/" name, [str_take 255 ("-" +:+ name)])]
  /\ ((String.length name <= 254)%nat -> str_take 255 ("-" +:+ name) = "-" +:+ name).
Proof.
  intros Ho Hm Hn. unfold run_trace.
  rewrite (run_forkpty_child _ _ _ _ _ _ Ho Hm). cbn [snd].
  rewrite execl_calls_child. unfold login_arg.
  rewrite (shell_name_last_segment _ _ Hn). split; [done|].
  apply login_arg_fits.
Qed.

Lemma kobold_forkpty_login_arg_witness :
  execl_calls
    (run_trace (Oracle ForkptyChild true)
               (kobold_forkpty 0 ("/bin" +:+ String "/" "zsh") 24 80) proc0)
    = [("/bin" +:+ String "/" "zsh", [str_take 255 ("-" +:+ "zsh")])]
  /\ ((String.length "zsh" <= 254)%nat -> str_take 255 ("-" +:+ "zsh") = "-" +:+ "zsh").
Proof.
  apply (kobold_forkpty_login_arg (Oracle ForkptyChild true) 0 "/bin" "zsh"
           24 80 proc0); reflexivity.
Defined.

(** C2 fails as stated: for a path whose last segment has 255 bytes, the
    argument passed is not ['-'] followed by that segment. *)
Lemma kobold_forkpty_login_arg_long_segment :
  str_mem "/" (str_repeat "a" 255) = false
  /\ execl_calls
       (run_trace (Oracle ForkptyChild true)
          (kobold_forkpty 0 ("/bin" +:+ String "/" (str_repeat "a" 255)) 24 80)
          proc0)
     <> [("/bin" +:+ String "/" (str_repeat "a" 255),
          ["-" +:+ str_repeat "a" 255])].
Proof.
  split; [reflexivity|]. intros H.
  apply (f_equal (fun l => match l with
                           | [(_, [a])] => String.length a
                           | _ => O
                           end)) in H.
  vm_compute in H. discriminate.
Qed.

(** C10, as the code has it. When the shell path has no ['/'], the single
    argument of the one [execl] call is the text of ['-'] followed by the
    shell path, cut to the 255 bytes that the buffer [login_arg] holds; it is
    never empty. When the path has at most 254 bytes, the argument is the
    whole text. *)
Theorem kobold_forkpty_login_arg_no_separator o child_pid shell_path rows cols st :
  o_forkpty o = ForkptyChild -> pty_mutex st = false ->
  str_mem "/" shell_path = false ->
  execl_calls (run_trace o (kobold_forkpty child_pid shell_path rows cols) st)
    = [(shell_path, [str_take 255 ("-" +:+ shell_path)])]
  /\ str_take 255 ("-" +:+ shell_path) <> ""
  /\ ((String.length shell_path <= 254)%nat ->
      str_take 255 ("-" +:+ shell_path) = "-" +:+ shell_path).
Proof.
  intros Ho Hm Hn. unfold run_trace.
  rewrite (run_forkpty_child _ _ _ _ _ _ Ho Hm). cbn [snd].
  rewrite execl_calls_child. unfold login_arg.
  rewrite (shell_name_no_separator _ Hn). split; [done|]. split; [done|].
  apply login_arg_fits.
Qed.

Lemma kobold_forkpty_login_arg_no_separator_witness :
  execl_calls (run_trace (Oracle ForkptyChild true)
                         (kobold_forkpty 0 "zsh" 24 80) proc0)
    = [("zsh", [str_take 255 ("-" +:+ "zsh")])]
  /\ str_take 255 ("-" +:+ "zsh") <> ""
  /\ ((String.length "zsh" <= 254)%nat ->
      str_take 255 ("-" +:+ "zsh") = "-" +:+ "zsh").
Proof.
  apply (kobold_forkpty_login_arg_no_separator (Oracle ForkptyChild true) 0
           "zsh" 24 80 proc0); reflexivity.
Defined.

(** C10 fails as stated: for a path of 255 bytes without ['/'], the
    argument passed is not ['-'] followed by the whole path. *)
Lemma kobold_forkpty_login_arg_long_path :
  str_mem "/" (str_repeat "z" 255) = false
  /\ execl_calls
       (run_trace (Oracle ForkptyChild true)
          (kobold_forkpty 0 (str_repeat "z" 255) 24 80) proc0)
     <> [(str_repeat "z" 255, ["-" +:+ str_repeat "z" 255])].
Proof.
  split; [reflexivity|]. intros H.
  apply (f_equal (fun l => match l with
                           | [(_, [a])] => String.length a
                           | _ => O
                           end)) in H.
  vm_compute in H. discriminate.
Qed.

Lemma child_environ_lookup rows cols (e : gmap string string) (name : string) :
  child_environ rows cols e !! name =
    if decide (name = "LINES") then Some (snprintf 32 (format_d rows))
    else if decide (name = "COLUMNS") then Some (snprintf 32 (format_d cols))
    else if decide (name = "COLORTERM") then Some "truecolor"
    else if decide (name = "LANG") then Some "de_DE.UTF-8"
    else if decide (name = "TERM") then Some "xterm-256color"
    else e !! name.
Proof.
  unfold child_environ.
  repeat (case_decide; [by subst; simplify_map_eq|]).
  by rewrite !lookup_insert_ne.
Qed.

(** C4. In the child, at the [execl] call (and from the third call on
    nothing but [setenv] wrote to the environment), [COLUMNS] and [LINES]
    hold the decimal numerals of [cols] and [rows], which read back as these
    numbers; [TERM], [LANG] and [COLORTERM] hold values fixed in the code;
    the five values are the same from whatever state of the host the call
    is made, so they depend on nothing but the arguments of the call; every
    other variable is as the host had it. In the parent the environment is
    untouched. *)
Theorem kobold_forkpty_child_environment o child_pid shell_path rows cols st :
  o_forkpty o = ForkptyChild -> pty_mutex st = false ->
  int_range rows -> int_range cols ->
  let env' := environ (run_state o (kobold_forkpty child_pid shell_path rows cols) st) in
  env' !! "COLUMNS" = Some (format_d cols)
  /\ env' !! "LINES" = Some (format_d rows)
  /\ atoi (format_d cols) = cols
  /\ atoi (format_d rows) = rows
  /\ env' !! "TERM" = Some "xterm-256color"
  /\ env' !! "LANG" = Some "de_DE.UTF-8"
  /\ env' !! "COLORTERM" = Some "truecolor"
  /\ (forall o2 child_pid2 st2 name,
        o_forkpty o2 = ForkptyChild -> pty_mutex st2 = false ->
        name ∈ ["TERM"; "LANG"; "COLORTERM"; "COLUMNS"; "LINES"] ->
        environ (run_state o2 (kobold_forkpty child_pid2 shell_path rows cols) st2)
          !! name = env' !! name)
  /\ (forall name,
        name ∉ ["TERM"; "LANG"; "COLORTERM"; "COLUMNS"; "LINES"] ->
        env' !! name = environ st !! name)
  /\ (forall o' : oracle,
        forkpty_contract o' -> o_forkpty o' <> ForkptyChild ->
        environ (run_state o' (kobold_forkpty child_pid shell_path rows cols) st)
          = environ st).
Proof.
  intros Ho Hm Hr Hc env'. subst env'. unfold run_state.
  rewrite (run_forkpty_child _ _ _ _ _ _ Ho Hm). cbn [fst snd environ].
  rewrite !child_environ_lookup, !snprintf_format_d by done.
  repeat (split; [by auto using atoi_format_d|]).
  split; [|split].
  - intros o2 cp2 st2 name Ho2 Hm2 Hn.
    rewrite (run_forkpty_child _ _ _ _ _ _ Ho2 Hm2). cbn [fst snd environ].
    rewrite !child_environ_lookup.
    repeat (case_decide; [done|]). exfalso.
    repeat (apply elem_of_cons in Hn as [->|Hn]; [done|]).
    by apply elem_of_nil in Hn.
  - intros name Hn. rewrite child_environ_lookup.
    repeat (case_decide; [subst; exfalso; apply Hn; compute_done|]). done.
  - intros o' Hc' Ho'. unfold forkpty_contract in Hc'.
    destruct (o_forkpty o') as [|pid master|] eqn:Hf; [| |done].
    + by rewrite (run_forkpty_error _ _ _ _ _ _ Hf Hm).
    + rewrite (run_forkpty_parent _ _ _ _ _ _ _ _ Hf Hm).
      destruct (Z.ltb_spec pid 0); [done|].
      destruct (Z.eqb_spec pid 0); [lia|done].
Qed.

Lemma kobold_forkpty_child_environment_witness :
  int_range 24 /\ int_range 80
  /\ environ (run_state (Oracle ForkptyChild true)
                        (kobold_forkpty 0 "/bin/zsh" 24 80) proc0) !! "COLUMNS"
     = Some "80"
  /\ environ (run_state (Oracle ForkptyChild true)
                        (kobold_forkpty 0 "/bin/zsh" 24 80) proc0) !! "LINES"
     = Some "24".
Proof.
  assert (int_range 24) as Hr by (unfold int_range, INT_MIN, INT_MAX; lia).
  assert (int_range 80) as Hc by (unfold int_range, INT_MIN, INT_MAX; lia).
  split; [exact Hr|]. split; [exact Hc|].
  pose proof (kobold_forkpty_child_environment (Oracle ForkptyChild true)
                0 "/bin/zsh" 24 80 proc0 eq_refl eq_refl Hr Hc) as H.
  split; [exact (proj1 H) | exact (proj1 (proj2 H))].
Defined.

Lemma child_sigtable_lookup (t : gmap signal sigaction_t) (s : signal) :
  child_sigtable t !! s =
    if bool_decide (s ∈ reset_signals) then Some sigaction_zero else t !! s.
Proof.
  unfold child_sigtable. cbn [foldl reset_signals].
  destruct s;
    match goal with
    | |- _ = if bool_decide (?s ∈ ?l) then _ else _ =>
        let b := eval vm_compute in (bool_decide (s ∈ l)) in
        change (bool_decide (s ∈ l)) with b
    end;
    by simplify_map_eq.
Qed.

(** C5. In the child, the [sigaction] calls of the run are seven, for
    [SIGINT], [SIGQUIT], [SIGTSTP], [SIGPIPE], [SIGCHLD], [SIGHUP] and
    [SIGTERM], each installing the default action with an empty mask and no
    flags; they come before the [execl] call; at that call these seven
    signals have the default action and every other signal has the action
    the host had installed. *)
Theorem kobold_forkpty_child_signals o child_pid shell_path rows cols st :
  o_forkpty o = ForkptyChild -> pty_mutex st = false ->
  let seven := [SIGINT; SIGQUIT; SIGTSTP; SIGPIPE; SIGCHLD; SIGHUP; SIGTERM] in
  let t' := sigtable (run_state o (kobold_forkpty child_pid shell_path rows cols) st) in
  sigaction_calls (run_trace o (kobold_forkpty child_pid shell_path rows cols) st)
    = map (fun s => (s, Sigaction_t SIG_DFL ∅ 0)) seven
  /\ (exists before after argv,
        run_trace o (kobold_forkpty child_pid shell_path rows cols) st
          = before ++ Execl shell_path argv :: after
        /\ sigaction_calls after = [])
  /\ (forall s, s ∈ seven -> t' !! s = Some (Sigaction_t SIG_DFL ∅ 0))
  /\ (forall s, s ∉ seven -> t' !! s = sigtable st !! s).
Proof.
  intros Ho Hm seven t'. subst seven t'. unfold run_state, run_trace.
  rewrite (run_forkpty_child _ _ _ _ _ _ Ho Hm). cbn [fst snd sigtable].
  split; [by destruct (o_exec_ok o)|]. split.
  { exists (child_setup_calls rows cols),
           (if o_exec_ok o then [] else [Exit_ 127]), [login_arg shell_path].
    split; [unfold child_calls; by rewrite <-app_assoc|].
    by destruct (o_exec_ok o). }
  split; intros s Hs; rewrite child_sigtable_lookup.
  - by rewrite bool_decide_eq_true_2.
  - by rewrite bool_decide_eq_false_2.
Qed.

Lemma kobold_forkpty_child_signals_witness :
  sigtable (run_state (Oracle ForkptyChild true)
                      (kobold_forkpty 0 "/bin/zsh" 24 80) proc0) !! SIGPIPE
    = Some (Sigaction_t SIG_DFL ∅ 0)
  /\ sigtable (run_state (Oracle ForkptyChild true)
                         (kobold_forkpty 0 "/bin/zsh" 24 80) proc0) !! SIGUSR1
    = sigtable proc0 !! SIGUSR1.
Proof.
  pose proof (kobold_forkpty_child_signals (Oracle ForkptyChild true)
                0 "/bin/zsh" 24 80 proc0 eq_refl eq_refl) as H.
  cbv zeta in H. destruct H as (_ & _ & Hin & Hout). split.
  - apply Hin. compute_done.
  - apply Hout. compute_done.
Defined.

(** ** Resizing *)

(** C6. A call of [kobold_pty_resize] issues exactly one [TIOCSWINSZ]
    request, between locking and unlocking [pty_mutex]. It returns -1
    exactly when the request fails (returns a negative value) and 0
    otherwise. After a failed request the window sizes of all PTYs are as
    before; after a successful one the PTY has the new row and column
    counts together. *)
Theorem kobold_pty_resize_result o master_fd rows cols st :
  pty_mutex st = false ->
  exists r : Z,
    (sys o (Ioctl_TIOCSWINSZ master_fd (winsize_arg rows cols))
         (set_pty_mutex st true)).2 = inl r
    /\ run_trace o (kobold_pty_resize master_fd rows cols) st
       = [Pthread_mutex_lock;
          Ioctl_TIOCSWINSZ master_fd (winsize_arg rows cols);
          Pthread_mutex_unlock]
    /\ (run_outcome o (kobold_pty_resize master_fd rows cols) st = Returned (-1)
        <-> r < 0)
    /\ (run_outcome o (kobold_pty_resize master_fd rows cols) st = Returned 0
        <-> 0 <= r)
    /\ (r < 0 ->
        ptys (run_state o (kobold_pty_resize master_fd rows cols) st) = ptys st)
    /\ (0 <= r ->
        ptys (run_state o (kobold_pty_resize master_fd rows cols) st) !! master_fd
        = Some (Winsize (to_ushort rows) (to_ushort cols) 0 0))
    /\ pty_mutex (run_state o (kobold_pty_resize master_fd rows cols) st) = false.
Proof.
  intros Hm. unfold run_trace, run_outcome, run_state.
  rewrite (run_resize _ _ _ _ _ Hm). cbn [sys ptys set_pty_mutex].
  destruct (bool_decide (is_Some (ptys st !! master_fd))); cbn [fst snd].
  - exists 0. repeat split; try done; try lia.
    intros _. cbn [set_ptys ptys]. by rewrite lookup_insert_eq.
  - exists (-1). repeat split; try done; try lia.
Qed.

Lemma kobold_pty_resize_result_witness :
  exists r : Z,
    (sys (Oracle ForkptyError true) (Ioctl_TIOCSWINSZ 5 (winsize_arg 40 132))
         (set_pty_mutex proc0 true)).2 = inl r
    /\ run_trace (Oracle ForkptyError true) (kobold_pty_resize 5 40 132) proc0
       = [Pthread_mutex_lock; Ioctl_TIOCSWINSZ 5 (winsize_arg 40 132);
          Pthread_mutex_unlock]
    /\ (run_outcome (Oracle ForkptyError true) (kobold_pty_resize 5 40 132) proc0
          = Returned (-1) <-> r < 0)
    /\ (run_outcome (Oracle ForkptyError true) (kobold_pty_resize 5 40 132) proc0
          = Returned 0 <-> 0 <= r)
    /\ (r < 0 ->
        ptys (run_state (Oracle ForkptyError true) (kobold_pty_resize 5 40 132) proc0)
          = ptys proc0)
    /\ (0 <= r ->
        ptys (run_state (Oracle ForkptyError true) (kobold_pty_resize 5 40 132) proc0)
          !! 5
        = Some (Winsize (to_ushort 40) (to_ushort 132) 0 0))
    /\ pty_mutex (run_state (Oracle ForkptyError true)
                            (kobold_pty_resize 5 40 132) proc0) = false.
Proof.
  apply (kobold_pty_resize_result (Oracle ForkptyError true) 5 40 132 proc0).
  reflexivity.
Defined.

(** ** Installing the child reaper *)

(** C8. [kobold_init_signal_handlers] returns, and the state after it is
    the same after one call as after any larger number of calls. In that
    state the action of [SIGCHLD] is [sigchld_handler] with an empty mask
    and the flags [SA_RESTART | SA_NOCLDSTOP]: these two flags are set and
    none of the others; every other signal keeps its action. *)
Theorem kobold_init_signal_handlers_idempotent o st (n : nat) :
  let init := run_state o kobold_init_signal_handlers in
  run_outcome o kobold_init_signal_handlers st = Returned ()
  /\ init (init st) = init st
  /\ Nat.iter (S n) init st = init st
  /\ sigtable (init st) !! SIGCHLD
     = Some (Sigaction_t (SIG_FN sigchld_handler) ∅ (Z.lor SA_RESTART SA_NOCLDSTOP))
  /\ Z.land (Z.lor SA_RESTART SA_NOCLDSTOP) SA_RESTART <> 0
  /\ Z.land (Z.lor SA_RESTART SA_NOCLDSTOP) SA_NOCLDSTOP <> 0
  /\ Forall (fun flag => Z.land (Z.lor SA_RESTART SA_NOCLDSTOP) flag = 0)
            [SA_ONSTACK; SA_RESETHAND; SA_NODEFER; SA_NOCLDWAIT; SA_SIGINFO]
  /\ (forall s, s <> SIGCHLD -> sigtable (init st) !! s = sigtable st !! s).
Proof.
  intros init.
  assert (forall s, init (init s) = init s) as Hidem.
  { intros s. subst init. unfold run_state.
    rewrite !run_init_signal_handlers. cbn [fst snd].
    unfold set_sigtable. cbn [sigtable pty_mutex environ ptys children atexit_fns].
    by rewrite insert_insert_eq. }
  split; [reflexivity|]. split; [apply Hidem|]. split.
  { induction n as [|n IH]; [reflexivity|].
    change (Nat.iter (S (S n)) init st) with (init (Nat.iter (S n) init st)).
    by rewrite IH. }
  subst init. unfold run_state. rewrite run_init_signal_handlers.
  cbn [fst snd set_sigtable sigtable].
  split; [by rewrite lookup_insert_eq|].
  do 2 (split; [discriminate|]).
  split; [by repeat constructor|].
  intros s Hs. by rewrite lookup_insert_ne.
Qed.

(** ** Window sizes *)

(** C9. Whatever [rows] and [cols] are, both functions go on to their
    kernel call, and the window size they hand over holds [rows] and [cols]
    modulo 2^16 (and zero pixel sizes). The size a successful call leaves
    with the PTY is that one, and in the caller the result of either function
    does not depend on [rows] and [cols]. *)
Theorem window_size_is_cast o child_pid shell_path master_fd rows cols st :
  pty_mutex st = false ->
  let ws := Winsize (rows mod 65536) (cols mod 65536) 0 0 in
  (exists rest,
      run_trace o (kobold_forkpty child_pid shell_path rows cols) st
      = Pthread_mutex_lock :: Forkpty ws :: rest)
  /\ run_trace o (kobold_pty_resize master_fd rows cols) st
     = [Pthread_mutex_lock; Ioctl_TIOCSWINSZ master_fd ws; Pthread_mutex_unlock]
  /\ (forall pid master,
        o_forkpty o = ForkptyParent pid master ->
        ptys (run_state o (kobold_forkpty child_pid shell_path rows cols) st)
          !! master = Some ws)
  /\ (is_Some (ptys st !! master_fd) ->
        ptys (run_state o (kobold_pty_resize master_fd rows cols) st)
          !! master_fd = Some ws)
  /\ (forall rows' cols',
        o_forkpty o <> ForkptyChild ->
        run_outcome o (kobold_forkpty child_pid shell_path rows cols) st
        = run_outcome o (kobold_forkpty child_pid shell_path rows' cols') st)
  /\ (forall rows' cols',
        run_outcome o (kobold_pty_resize master_fd rows cols) st
        = run_outcome o (kobold_pty_resize master_fd rows' cols') st).
Proof.
  intros Hm ws. subst ws. rewrite <-!to_ushort_mod.
  change (Winsize (to_ushort rows) (to_ushort cols) 0 0) with (winsize_arg rows cols).
  unfold run_trace, run_state, run_outcome.
  split; [|split; [|split; [|split; [|split]]]].
  - destruct (o_forkpty o) as [|pid master|] eqn:Ho.
    + rewrite (run_forkpty_error _ _ _ _ _ _ Ho Hm). by eexists.
    + rewrite (run_forkpty_parent _ _ _ _ _ _ _ _ Ho Hm).
      destruct (pid <? 0); [by eexists|]. destruct (pid =? 0); by eexists.
    + rewrite (run_forkpty_child _ _ _ _ _ _ Ho Hm). by eexists.
  - rewrite (run_resize _ _ _ _ _ Hm). by case_bool_decide.
  - intros pid master Ho. rewrite (run_forkpty_parent _ _ _ _ _ _ _ _ Ho Hm).
    destruct (pid <? 0); [|destruct (pid =? 0)]; cbn [fst snd ptys];
      by rewrite lookup_insert_eq.
  - intros Hfd. rewrite (run_resize _ _ _ _ _ Hm).
    rewrite bool_decide_eq_true_2 by done. cbn [fst snd set_ptys ptys].
    by rewrite lookup_insert_eq.
  - intros rows' cols' Ho. destruct (o_forkpty o) as [|pid master|] eqn:Hf; [| |done].
    + by rewrite !(run_forkpty_error _ _ _ _ _ _ Hf Hm).
    + rewrite !(run_forkpty_parent _ _ _ _ _ _ _ _ Hf Hm).
      destruct (pid <? 0); [|destruct (pid =? 0)]; done.
  - intros rows' cols'. rewrite !(run_resize _ _ _ _ _ Hm). by case_bool_decide.
Qed.

(** ** The locking discipline of the bridge *)

Lemma bind_ret {A B : Type} (a : A) (k : A -> prog B) : Ret a ≫= k = k a.
Proof. reflexivity. Qed.

Lemma bind_call {A B : Type} (c : syscall) (kk : result c -> prog A) (k : A -> prog B) :
  Call c kk ≫= k = Call c (fun x => kk x ≫= k).
Proof. reflexivity. Qed.

Lemma well_locked_bind {A B : Type} (held : bool) (p : prog A) (k : A -> prog B) :
  Threads.well_locked held p ->
  (forall a, Threads.well_locked false (k a)) ->
  Threads.well_locked held (p ≫= k).
Proof.
  intros Hp Hk. revert held Hp.
  induction p as [a|c kk IH]; intros held Hp.
  - simpl in Hp. subst held. rewrite bind_ret. apply Hk.
  - destruct Hp as [Hg Hx]. rewrite bind_call. split; [exact Hg|].
    intros x. apply IH, Hx.
Qed.

Lemma kobold_forkpty_well_locked child_pid shell_path rows cols :
  Threads.well_locked false (kobold_forkpty child_pid shell_path rows cols).
Proof.
  unfold kobold_forkpty. split; [reflexivity|]. intros [].
  split; [reflexivity|]. intros [pid master]. cbn -[Z.ltb Z.eqb].
  destruct (pid <? 0); [|destruct (pid =? 0)]; cbn; repeat split; by intros [].
Qed.

Lemma kobold_pty_resize_well_locked master_fd rows cols :
  Threads.well_locked false (kobold_pty_resize master_fd rows cols).
Proof.
  unfold kobold_pty_resize. split; [reflexivity|]. intros [].
  split; [reflexivity|]. intros r. cbn -[Z.ltb].
  destruct (r <? 0); cbn; repeat split.
Qed.

Lemma kobold_init_signal_handlers_well_locked :
  Threads.well_locked false kobold_init_signal_handlers.
Proof. cbn. repeat split. Qed.

Lemma bridge_client_well_locked {R : Type} (p : prog R) :
  Threads.bridge_client p -> Threads.well_locked false p.
Proof.
  induction 1 as [r|cp path rows cols k _ IH|fd rows cols k _ IH|k _ IH].
  - reflexivity.
  - apply well_locked_bind; [apply kobold_forkpty_well_locked|exact IH].
  - apply well_locked_bind; [apply kobold_pty_resize_well_locked|exact IH].
  - apply well_locked_bind; [apply kobold_init_signal_handlers_well_locked|exact IH].
Qed.

(** ** Mutual exclusion *)

Lemma well_locked_call_inv {R : Type} (held : bool) (c : syscall)
    (k : result c -> prog R) (x : result c) :
  Threads.well_locked held (Call c k) ->
  Threads.guard held c /\ Threads.well_locked (Threads.next_held held c) (k x).
Proof. intros [Hg Hx]. split; [exact Hg|apply Hx]. Qed.

(** A thread that does not take part in a step stays where it is. *)
Lemma consistent_other {R : Type} (h h' : option Threads.tid)
    (ths : list (prog R)) (t t' : Threads.tid) (p p' : prog R) :
  t <> t' ->
  <[t := p]> ths !! t' = Some p' ->
  (h = Some t' <-> h' = Some t') ->
  (forall q, ths !! t' = Some q ->
             Threads.well_locked (bool_decide (h = Some t')) q) ->
  Threads.well_locked (bool_decide (h' = Some t')) p'.
Proof.
  intros Hne Hl Hiff Hc. rewrite list_lookup_insert_ne in Hl by done.
  rewrite <-(bool_decide_ext _ _ Hiff). by apply Hc.
Qed.

Lemma step_consistent {R : Type} (cfg cfg' : Threads.config R) ev :
  Threads.step cfg ev cfg' -> Threads.consistent cfg -> Threads.consistent cfg'.
Proof.
  intros Hstep Hc.
  destruct Hstep as [t k ths Ht|t k ths Ht|t c k x h ths Ht Hm Hx];
    intros t' p' Hl; cbn [Threads.owner Threads.pool] in *.
  - destruct (decide (t = t')) as [<-|Hne].
    + rewrite list_lookup_insert_eq in Hl by (by eapply lookup_lt_Some).
      injection Hl as <-. rewrite bool_decide_eq_true_2 by done.
      pose proof (Hc _ _ Ht) as Hw. cbn [Threads.owner] in Hw.
      rewrite bool_decide_eq_false_2 in Hw by done.
      apply (proj2 (well_locked_call_inv false Pthread_mutex_lock k () Hw)).
    + eapply (consistent_other None); [done..| |by apply Hc].
      split; [done|]. intros [=]. done.
  - destruct (decide (t = t')) as [<-|Hne].
    + rewrite list_lookup_insert_eq in Hl by (by eapply lookup_lt_Some).
      injection Hl as <-. rewrite bool_decide_eq_false_2 by done.
      pose proof (Hc _ _ Ht) as Hw. cbn [Threads.owner] in Hw.
      rewrite bool_decide_eq_true_2 in Hw by done.
      apply (proj2 (well_locked_call_inv true Pthread_mutex_unlock k () Hw)).
    + eapply (consistent_other (Some t)); [done..| |by apply Hc].
      split; [|done]. intros [=]. done.
  - destruct (decide (t = t')) as [<-|Hne].
    + rewrite list_lookup_insert_eq in Hl by (by eapply lookup_lt_Some).
      injection Hl as <-.
      destruct (well_locked_call_inv _ _ _ x (Hc _ _ Ht)) as [_ Hw].
      cbn [Threads.owner] in Hw. by destruct c.
    + eapply (consistent_other h); [done..|by apply Hc].
Qed.

(** In a consistent configuration, a thread about to make a protected call
    or to unlock holds the mutex. *)
Lemma consistent_needs_lock {R : Type} (cfg : Threads.config R) t c k :
  Threads.consistent cfg ->
  Threads.pool cfg !! t = Some (Call c k) ->
  Threads.needs_lock c = true ->
  Threads.owner cfg = Some t.
Proof.
  intros Hc Ht Hn. destruct (Hc _ _ Ht) as [Hg _].
  destruct c; try discriminate; cbn in Hg; by apply bool_decide_eq_true in Hg.
Qed.

Lemma step_serialized {R : Type} (cfg cfg' : Threads.config R) ev tr :
  Threads.step cfg ev cfg' -> Threads.consistent cfg ->
  Threads.serialized (Threads.owner cfg') tr = true ->
  Threads.serialized (Threads.owner cfg) (ev :: tr) = true.
Proof.
  intros Hstep Hc Htr. pose proof Hstep as Hs.
  destruct Hs as [t k ths Ht|t k ths Ht|t c k x h ths Ht Hm Hx];
    cbn [Threads.owner Threads.serialized] in *.
  - exact Htr.
  - by rewrite bool_decide_eq_true_2.
  - destruct c; try done;
      (pose proof (consistent_needs_lock _ _ _ _ Hc Ht eq_refl) as Ho;
       cbn [Threads.owner] in Ho; subst h;
       by rewrite bool_decide_eq_true_2).
Qed.

Lemma steps_consistent {R : Type} (cfg cfg' : Threads.config R) tr :
  Threads.steps cfg tr cfg' -> Threads.consistent cfg ->
  Threads.consistent cfg' /\ Threads.serialized (Threads.owner cfg) tr = true.
Proof.
  induction 1 as [cfg|cfg1 ev cfg2 tr cfg3 Hstep _ IH]; intros Hc; [done|].
  destruct (IH (step_consistent _ _ _ Hstep Hc)) as [Hc3 Htr].
  split; [exact Hc3|]. by eapply step_serialized.
Qed.

Lemma initial_consistent {R : Type} (ths : list (prog R)) :
  (forall t p, ths !! t = Some p -> Threads.bridge_client p) ->
  Threads.consistent (Threads.Config None ths).
Proof.
  intros Hcl t p Ht. cbn [Threads.owner]. rewrite bool_decide_eq_false_2 by done.
  by eapply bridge_client_well_locked, Hcl.
Qed.

Lemma kobold_forkpty_releases o child_pid shell_path rows cols st :
  pty_mutex st = false ->
  pty_mutex (run_state o (kobold_forkpty child_pid shell_path rows cols) st) = false
  /\ mutex_calls (run_trace o (kobold_forkpty child_pid shell_path rows cols) st)
     = [Pthread_mutex_lock; Pthread_mutex_unlock].
Proof.
  intros Hm. unfold run_state, run_trace.
  destruct (o_forkpty o) as [|pid master|] eqn:Ho.
  - by rewrite (run_forkpty_error _ _ _ _ _ _ Ho Hm).
  - rewrite (run_forkpty_parent _ _ _ _ _ _ _ _ Ho Hm).
    destruct (pid <? 0); [done|].
    destruct (pid =? 0); [|done]. by destruct (o_exec_ok o).
  - rewrite (run_forkpty_child _ _ _ _ _ _ Ho Hm). by destruct (o_exec_ok o).
Qed.

Lemma kobold_pty_resize_releases o master_fd rows cols st :
  pty_mutex st = false ->
  pty_mutex (run_state o (kobold_pty_resize master_fd rows cols) st) = false
  /\ mutex_calls (run_trace o (kobold_pty_resize master_fd rows cols) st)
     = [Pthread_mutex_lock; Pthread_mutex_unlock].
Proof.
  intros Hm. unfold run_state, run_trace. rewrite (run_resize _ _ _ _ _ Hm).
  by case_bool_decide.
Qed.

(** C7. Threads of the host process that call the functions of the bridge,
    in any number and order, starting with [pty_mutex] free: however their
    steps interleave, at most one thread is between its lock and its unlock
    (about to call [forkpty], to issue the [TIOCSWINSZ] request, or to
    unlock), and that thread holds the mutex; in the calls made so far locks
    and unlocks alternate and every [forkpty] and [TIOCSWINSZ] request was
    made by the thread that locked last; no thread unlocks a mutex it does
    not hold, locks it again while holding it, or finishes holding it.
    And every run of either function, on every path (failure, parent, child
    ending in [execl] or in [_exit]), locks once, unlocks once, and leaves
    the mutex of its process unlocked. *)
Theorem pty_mutex_serializes {R : Type} (ths : list (prog R))
    (tr : list (Threads.tid * syscall)) (cfg : Threads.config R)
    o child_pid shell_path master_fd rows cols st :
  (forall t p, ths !! t = Some p -> Threads.bridge_client p) ->
  Threads.steps (Threads.Config None ths) tr cfg ->
  pty_mutex st = false ->
  (forall t1 t2,
      Threads.in_critical_section cfg t1 ->
      Threads.in_critical_section cfg t2 -> t1 = t2)
  /\ (forall t, Threads.in_critical_section cfg t -> Threads.owner cfg = Some t)
  /\ Threads.serialized None tr = true
  /\ ~ Threads.faulty cfg
  /\ (forall t k,
        Threads.owner cfg = Some t ->
        Threads.pool cfg !! t <> Some (Call Pthread_mutex_lock k))
  /\ (forall t r,
        Threads.owner cfg = Some t -> Threads.pool cfg !! t <> Some (Ret r))
  /\ pty_mutex (run_state o (kobold_forkpty child_pid shell_path rows cols) st) = false
  /\ mutex_calls (run_trace o (kobold_forkpty child_pid shell_path rows cols) st)
     = [Pthread_mutex_lock; Pthread_mutex_unlock]
  /\ pty_mutex (run_state o (kobold_pty_resize master_fd rows cols) st) = false
  /\ mutex_calls (run_trace o (kobold_pty_resize master_fd rows cols) st)
     = [Pthread_mutex_lock; Pthread_mutex_unlock].
Proof.
  intros Hcl Hsteps Hm.
  destruct (steps_consistent _ _ _ Hsteps (initial_consistent _ Hcl)) as [Hc Htr].
  assert (forall t, Threads.in_critical_section cfg t -> Threads.owner cfg = Some t)
    as Hcs.
  { intros t (c & k & Ht & Hn). by eapply consistent_needs_lock. }
  split.
  { intros t1 t2 H1%Hcs H2%Hcs. congruence. }
  split; [exact Hcs|]. split; [exact Htr|]. split.
  { intros (t & k & Ht & Ho). apply Ho. by eapply consistent_needs_lock. }
  split.
  { intros t k Ho Ht. destruct (Hc _ _ Ht) as [Hg _]. cbn in Hg.
    by rewrite bool_decide_eq_true_2 in Hg. }
  split.
  { intros t r Ho Ht. pose proof (Hc _ _ Ht) as Hg. cbn in Hg.
    by rewrite bool_decide_eq_true_2 in Hg. }
  destruct (kobold_forkpty_releases o child_pid shell_path rows cols st Hm)
    as [Hf1 Hf2].
  destruct (kobold_pty_resize_releases o master_fd rows cols st Hm) as [Hr1 Hr2].
  done.
Qed.

Lemma pty_mutex_serializes_witness :
  exists cfg : Threads.config unit,
    Threads.steps (Threads.Config None two_threads)
      [(1%nat, Pthread_mutex_lock);
       (1%nat, Ioctl_TIOCSWINSZ 5 (winsize_arg 40 132))] cfg
    /\ Threads.in_critical_section cfg 1%nat
    /\ (forall t, Threads.in_critical_section cfg t -> Threads.owner cfg = Some t)
    /\ ~ Threads.faulty cfg.
Proof.
  assert (forall t p, two_threads !! t = Some p -> Threads.bridge_client p) as Hcl.
  { intros [|[|t]] p Hp; [..|discriminate]; injection Hp as <-.
    - apply Threads.client_forkpty. intros r. apply Threads.client_ret.
    - apply Threads.client_resize. intros r. apply Threads.client_ret. }
  eexists. split; [|split].
  - eapply Threads.steps_cons.
    { eapply (Threads.step_lock 1%nat). reflexivity. }
    eapply Threads.steps_cons.
    { eapply (Threads.step_call 1%nat (Ioctl_TIOCSWINSZ 5 (winsize_arg 40 132)) _ 0);
        [reflexivity|reflexivity|exact I]. }
    apply Threads.steps_nil.
  - eexists _, _. split; reflexivity.
  - match goal with
    | |- (forall t, Threads.in_critical_section ?cfg t -> _) /\ _ =>
        assert (Threads.steps (Threads.Config None two_threads)
                  [(1%nat, Pthread_mutex_lock);
                   (1%nat, Ioctl_TIOCSWINSZ 5 (winsize_arg 40 132))] cfg) as Hsteps
    end.
    { eapply Threads.steps_cons.
      { eapply (Threads.step_lock 1%nat). reflexivity. }
      eapply Threads.steps_cons.
      { eapply (Threads.step_call 1%nat (Ioctl_TIOCSWINSZ 5 (winsize_arg 40 132)) _ 0);
          [reflexivity|reflexivity|exact I]. }
      apply Threads.steps_nil. }
    pose proof (pty_mutex_serializes two_threads _ _
                  (Oracle ForkptyError true) 0 "/bin/zsh" 5 24 80 proc0
                  Hcl Hsteps eq_refl) as H.
    split; [exact (proj1 (proj2 H)) | exact (proj1 (proj2 (proj2 (proj2 H))))].
Defined.

Lemma window_size_is_cast_witness :
  run_trace (Oracle ForkptyError true) (kobold_pty_resize 5 (-1) 65537) proc0
  = [Pthread_mutex_lock; Ioctl_TIOCSWINSZ 5 (Winsize 65535 1 0 0);
     Pthread_mutex_unlock].
Proof.
  exact (proj1 (proj2 (window_size_is_cast (Oracle ForkptyError true) 0
                         "/bin/zsh" 5 (-1) 65537 proc0 eq_refl))).
Defined.

(** ** The child reaper *)

Lemma set_children_same (st : proc) : set_children st (children st) = st.
Proof. by destruct st. Qed.

Lemma set_children_twice (st : proc) (c1 c2 : gset Z) :
  set_children (set_children st c1) c2 = set_children st c2.
Proof. by destruct st. Qed.

(** X1. Called with any signal number and from any state of the host (a
    thread may hold [pty_mutex]), [sigchld_handler] ends after one [waitpid]
    call for each terminated child and one more: the calls return the pids
    of the terminated children in turn and then 0 or -1 (-1 when no child is
    left at all). Afterwards no terminated child is waiting, the other
    children are still children, and nothing else in the process has
    changed. The pids of children are positive. *)
Theorem sigchld_handler_reaps_all (fuel : nat) (sig : Z) (st : proc) (zs : list Z) :
  Forall (fun z => 0 < z) zs -> (length zs < fuel)%nat ->
  Reaper.sigchld_handler fuel sig (Reaper.Host st zs)
  = Some (Reaper.Host (set_children st (children st ∖ list_to_set zs)) [],
          zs ++ [if decide (children st ∖ list_to_set zs = ∅) then -1 else 0])
  /\ (forall pid, pid ∈ children st -> pid ∉ zs ->
                  pid ∈ children st ∖ list_to_set zs).
Proof.
  intros Hpos Hfuel. split.
  - revert fuel st Hfuel.
    induction Hpos as [|z zs Hz _ IH]; intros [|fuel] st Hfuel;
      cbn [length] in Hfuel; try lia.
    + cbn [Reaper.sigchld_handler Reaper.waitpid_nohang Reaper.terminated
           Reaper.host_proc list_to_set app].
      rewrite difference_empty_L, set_children_same.
      by destruct (decide (children st = ∅)).
    + cbn [Reaper.sigchld_handler Reaper.waitpid_nohang Reaper.terminated
           Reaper.host_proc].
      destruct (Z.gtb_spec z 0) as [_|]; [|lia].
      rewrite IH by lia. rewrite set_children_twice.
      cbn [list_to_set app].
      replace (children (set_children st (children st ∖ {[z]})) ∖ list_to_set zs)
        with (children st ∖ ({[z]} ∪ list_to_set zs)); [done|].
      destruct st; cbn [children set_children].
      by rewrite difference_difference_l_L.
  - intros pid Hc Hz. apply elem_of_difference. split; [done|].
    by rewrite elem_of_list_to_set.
Qed.

Lemma sigchld_handler_reaps_all_witness :
  Reaper.sigchld_handler 3 20
    (Reaper.Host (set_children proc0 {[ 4242; 4243; 4250 ]}) [4243; 4242])
  = Some (Reaper.Host
            (set_children (set_children proc0 {[ 4242; 4243; 4250 ]})
               (children (set_children proc0 {[ 4242; 4243; 4250 ]})
                  ∖ list_to_set [4243; 4242])) [],
          [4243; 4242]
            ++ [if decide (children (set_children proc0 {[ 4242; 4243; 4250 ]})
                             ∖ list_to_set [4243; 4242] = ∅)
                then -1 else 0]).
Proof.
  apply (sigchld_handler_reaps_all 3 20
           (set_children proc0 {[ 4242; 4243; 4250 ]}) [4243; 4242]).
  - repeat constructor.
  - simpl. lia.
Defined.

Example sigchld_handler_two_of_three :
  Reaper.sigchld_handler 3 20
    (Reaper.Host (set_children proc0 {[ 4242; 4243; 4250 ]}) [4243; 4242])
  = Some (Reaper.Host (set_children proc0 {[ 4250 ]}) [], [4243; 4242; 0]).
Proof. by vm_compute. Qed.

Example sigchld_handler_last_child :
  Reaper.sigchld_handler 2 20 (Reaper.Host (set_children proc0 {[ 4242 ]}) [4242])
  = Some (Reaper.Host proc0 [], [4242; -1]).
Proof. by vm_compute. Qed.

(** ** More on the child *)

Lemma strrchr_none_absent (s : string) (c : ascii) :
  strrchr s c = None -> str_mem c s = false.
Proof.
  intros Hn. destruct (str_mem c s) eqn:Hm; [|done].
  destruct (strrchr_present s c Hm) as [p Hp]. congruence.
Qed.

(** Where [strrchr] points: at an occurrence of [c] with no [c] after it. *)
Lemma strrchr_some (s p : string) (c : ascii) :
  strrchr s c = Some p ->
  exists pre rest,
    s = pre +:+ String c rest /\ p = String c rest /\ str_mem c rest = false.
Proof.
  revert p. induction s as [|a s IH]; intros p Hp.
  { discriminate Hp. }
  change (match strrchr s c with
          | Some q => Some q
          | None => if Ascii.eqb a c then Some (String a s) else None
          end = Some p) in Hp.
  destruct (strrchr s c) as [p'|] eqn:Hs.
  - injection Hp as <-.
    destruct (IH p' eq_refl) as (pre & rest & -> & -> & Hr).
    exists (String a pre), rest. by rewrite append_cons.
  - destruct (Ascii.eqb_spec a c) as [->|]; [|discriminate Hp].
    injection Hp as <-.
    exists "", s. rewrite append_nil. by rewrite (strrchr_none_absent _ _ Hs).
Qed.



(** X3. The name the child derives from a shell path, any path, is its last
    segment: the path is some prefix followed by the name, the name has no
    ['/'], and the prefix is empty when the path has no ['/'] and ends in
    ['/'] otherwise. No other split of the path has these properties. *)
Theorem shell_name_is_last_segment (shell_path : string) :
  (exists prefix,
      shell_path = prefix +:+ shell_name shell_path
      /\ str_mem "/" (shell_name shell_path) = false
      /\ (str_mem "/" shell_path = false -> prefix = "")
      /\ (str_mem "/" shell_path = true ->
          exists dir, prefix = dir +:+ String "/" ""))
  /\ (forall dir name,
        shell_path = dir +:+ String "/" name -> str_mem "/" name = false ->
        name = shell_name shell_path)
  /\ (str_mem "/" shell_path = false -> shell_name shell_path = shell_path).
Proof.
  split; [|split].
  - unfold shell_name. destruct (strrchr shell_path "/") as [p|] eqn:Hs.
    + destruct (strrchr_some _ _ _ Hs) as (pre & rest & -> & -> & Hr).
      exists (pre +:+ String "/" ""). cbn [str_next].
      assert (str_mem "/" (pre +:+ String "/" rest) = true) as Hin.
      { clear. induction pre as [|a pre IH]; [done|].
        rewrite append_cons. cbn [str_mem]. rewrite IH. apply orb_true_r. }
      split; [|split; [done|split]].
      * clear. induction pre as [|a pre IH]; [done|].
        rewrite !append_cons. by rewrite <-IH.
      * by rewrite Hin.
      * intros _. by exists pre.
    + exists "". rewrite append_nil.
      pose proof (strrchr_none_absent _ _ Hs) as Hm.
      split; [done|]. split; [done|]. split; [done|]. by rewrite Hm.
  - intros dir name -> Hn. by rewrite shell_name_last_segment.
  - apply shell_name_no_separator.
Qed.

Lemma str_take_prefix (n : nat) (s : string) :
  exists tail, s = str_take n s +:+ tail.
Proof.
  revert n. induction s as [|a s IH]; intros [|n]; cbn [str_take].
  - by exists "".
  - by exists "".
  - by exists (String a s).
  - destruct (IH n) as [tail Ht]. exists tail.
    rewrite append_cons. by rewrite <-Ht.
Qed.

(** X4. In the child, for every shell path, there is exactly one [execl]
    call; it passes the path as given and a single argument. The argument
    begins with ['-'], has between 1 and 255 bytes (it fits the buffer
    [login_arg] with its terminator), and is an initial part of ['-']
    followed by the last segment of the path. *)
Theorem kobold_forkpty_argv0_bounded o child_pid shell_path rows cols st :
  o_forkpty o = ForkptyChild -> pty_mutex st = false ->
  exists arg rest tail,
    execl_calls (run_trace o (kobold_forkpty child_pid shell_path rows cols) st)
      = [(shell_path, [arg])]
    /\ arg = String "-" rest
    /\ (1 <= String.length arg <= 255)%nat
    /\ "-" +:+ shell_name shell_path = arg +:+ tail.
Proof.
  intros Ho Hm. unfold run_trace.
  rewrite (run_forkpty_child _ _ _ _ _ _ Ho Hm). cbn [snd].
  rewrite execl_calls_child. unfold login_arg.
  destruct (str_take_prefix 254 (shell_name shell_path)) as [tail Ht].
  exists (snprintf 256 ("-" +:+ shell_name shell_path)),
         (str_take 254 (shell_name shell_path)), tail.
  split; [done|]. split; [done|]. split.
  - rewrite snprintf_length, length_append. cbn [String.length]. lia.
  - change ("-" +:+ shell_name shell_path)
      with (String "-" (shell_name shell_path)).
    change (snprintf 256 (String "-" (shell_name shell_path)))
      with (String "-" (str_take 254 (shell_name shell_path))).
    rewrite append_cons. by rewrite <-Ht.
Qed.

Lemma kobold_forkpty_argv0_bounded_witness :
  exists arg rest tail,
    execl_calls (run_trace (Oracle ForkptyChild true)
                   (kobold_forkpty 0 ("/bin/" +:+ str_repeat "a" 300) 24 80) proc0)
      = [("/bin/" +:+ str_repeat "a" 300, [arg])]
    /\ arg = String "-" rest
    /\ (1 <= String.length arg <= 255)%nat
    /\ "-" +:+ shell_name ("/bin/" +:+ str_repeat "a" 300) = arg +:+ tail.
Proof.
  apply (kobold_forkpty_argv0_bounded (Oracle ForkptyChild true) 0
           ("/bin/" +:+ str_repeat "a" 300) 24 80 proc0); reflexivity.
Defined.

(** X5. In the child, [LINES] and [COLUMNS] are printed from the [int]
    arguments while the window size handed to [forkpty] holds their casts:
    the number in [LINES] is the row count of the window exactly when
    [rows] is between 0 and 65535, and likewise for [COLUMNS] and [cols].
    For any other size the environment and the terminal disagree. *)
Theorem child_size_variables_match_window o child_pid shell_path rows cols st :
  o_forkpty o = ForkptyChild -> pty_mutex st = false ->
  int_range rows -> int_range cols ->
  exists lines columns ws rest,
    environ (run_state o (kobold_forkpty child_pid shell_path rows cols) st)
      !! "LINES" = Some lines
    /\ environ (run_state o (kobold_forkpty child_pid shell_path rows cols) st)
         !! "COLUMNS" = Some columns
    /\ run_trace o (kobold_forkpty child_pid shell_path rows cols) st
       = Pthread_mutex_lock :: Forkpty ws :: rest
    /\ (atoi lines = ws_row ws <-> 0 <= rows < 65536)
    /\ (atoi columns = ws_col ws <-> 0 <= cols < 65536).
Proof.
  intros Ho Hm Hr Hc. unfold run_state, run_trace.
  rewrite (run_forkpty_child _ _ _ _ _ _ Ho Hm). cbn [fst snd environ].
  exists (format_d rows), (format_d cols), (winsize_arg rows cols).
  eexists. rewrite !child_environ_lookup, !snprintf_format_d by done.
  split; [done|]. split; [done|]. split; [reflexivity|].
  cbn [winsize_arg ws_row ws_col].
  rewrite !atoi_format_d, !to_ushort_mod by done.
  split; (split; [intros ->; apply Z.mod_pos_bound; lia
                 |intros Hz; by rewrite Z.mod_small]).
Qed.

Lemma child_size_variables_match_window_witness :
  int_range 70000 /\ int_range 80
  /\ exists lines columns ws rest,
    environ (run_state (Oracle ForkptyChild true)
                       (kobold_forkpty 0 "/bin/zsh" 70000 80) proc0)
      !! "LINES" = Some lines
    /\ environ (run_state (Oracle ForkptyChild true)
                          (kobold_forkpty 0 "/bin/zsh" 70000 80) proc0)
         !! "COLUMNS" = Some columns
    /\ run_trace (Oracle ForkptyChild true)
                 (kobold_forkpty 0 "/bin/zsh" 70000 80) proc0
       = Pthread_mutex_lock :: Forkpty ws :: rest
    /\ (atoi lines = ws_row ws <-> 0 <= 70000 < 65536)
    /\ (atoi columns = ws_col ws <-> 0 <= 80 < 65536).
Proof.
  assert (int_range 70000) as Hr by (unfold int_range, INT_MIN, INT_MAX; lia).
  assert (int_range 80) as Hc by (unfold int_range, INT_MIN, INT_MAX; lia).
  split; [exact Hr|]. split; [exact Hc|].
  exact (child_size_variables_match_window (Oracle ForkptyChild true)
           0 "/bin/zsh" 70000 80 proc0 eq_refl eq_refl Hr Hc).
Defined.

Example child_size_mismatch :
  environ (run_state (Oracle ForkptyChild true)
                     (kobold_forkpty 0 "/bin/zsh" 70000 80) proc0) !! "LINES"
  = Some "70000"
  /\ run_trace (Oracle ForkptyChild true)
               (kobold_forkpty 0 "/bin/zsh" 70000 80) proc0 !! 1%nat
     = Some (Forkpty (Winsize 4464 80 0 0)).
Proof. by vm_compute. Qed.

(** ** More on the lock *)

(** X6. [kobold_forkpty] holds [pty_mutex] for the [forkpty] call and for
    nothing else: on every path its calls begin with lock, [forkpty],
    unlock, and no call on the mutex follows. Everything the child does
    ([setenv], [sigaction], [execl], [_exit]) comes after the unlock, and in
    the parent, and when [forkpty] fails, nothing follows at all. *)
Theorem pty_mutex_held_for_one_call o child_pid shell_path rows cols st :
  pty_mutex st = false ->
  exists rest,
    run_trace o (kobold_forkpty child_pid shell_path rows cols) st
    = [Pthread_mutex_lock; Forkpty (winsize_arg rows cols); Pthread_mutex_unlock]
      ++ rest
    /\ mutex_calls rest = []
    /\ (o_forkpty o = ForkptyError -> rest = [])
    /\ (forall pid master,
          o_forkpty o = ForkptyParent pid master -> pid <> 0 -> rest = []).
Proof.
  intros Hm. unfold run_trace.
  destruct (o_forkpty o) as [|pid master|] eqn:Ho.
  - rewrite (run_forkpty_error _ _ _ _ _ _ Ho Hm). by exists [].
  - rewrite (run_forkpty_parent _ _ _ _ _ _ _ _ Ho Hm).
    destruct (Z.ltb_spec pid 0); [by exists []|].
    destruct (Z.eqb_spec pid 0) as [->|]; [|by exists []].
    eexists. split; [reflexivity|]. split; [by destruct (o_exec_ok o)|].
    split; [done|]. intros ? ? [= <- <-]. done.
  - rewrite (run_forkpty_child _ _ _ _ _ _ Ho Hm).
    eexists. split; [reflexivity|]. split; [by destruct (o_exec_ok o)|]. done.
Qed.

Lemma pty_mutex_held_for_one_call_witness :
  exists rest,
    run_trace (Oracle ForkptyChild false)
              (kobold_forkpty 0 "/bin/zsh" 24 80) proc0
    = [Pthread_mutex_lock; Forkpty (winsize_arg 24 80); Pthread_mutex_unlock]
      ++ rest
    /\ mutex_calls rest = []
    /\ (o_forkpty (Oracle ForkptyChild false) = ForkptyError -> rest = [])
    /\ (forall pid master,
          o_forkpty (Oracle ForkptyChild false) = ForkptyParent pid master ->
          pid <> 0 -> rest = []).
Proof.
  apply (pty_mutex_held_for_one_call (Oracle ForkptyChild false) 0 "/bin/zsh"
           24 80 proc0). reflexivity.
Defined.

(** ** More on the parent *)

(** X7. In the parent, [kobold_forkpty] changes nothing of the process but
    what [forkpty] brought: the environment, the signal actions and the
    [atexit] functions are as before, every child is still a child, and
    every PTY other than the new master has the window size it had. When
    [forkpty] fails the whole state is as before the call. *)
Theorem kobold_forkpty_parent_frame o child_pid shell_path rows cols st :
  forkpty_contract o -> o_forkpty o <> ForkptyChild -> pty_mutex st = false ->
  environ (run_state o (kobold_forkpty child_pid shell_path rows cols) st)
    = environ st
  /\ sigtable (run_state o (kobold_forkpty child_pid shell_path rows cols) st)
     = sigtable st
  /\ atexit_fns (run_state o (kobold_forkpty child_pid shell_path rows cols) st)
     = atexit_fns st
  /\ children st
     ⊆ children (run_state o (kobold_forkpty child_pid shell_path rows cols) st)
  /\ (forall fd,
        (forall pid, o_forkpty o <> ForkptyParent pid fd) ->
        ptys (run_state o (kobold_forkpty child_pid shell_path rows cols) st) !! fd
        = ptys st !! fd)
  /\ (o_forkpty o = ForkptyError ->
      run_state o (kobold_forkpty child_pid shell_path rows cols) st = st).
Proof.
  intros Hc Hp Hm. unfold run_state, forkpty_contract in *.
  destruct (o_forkpty o) as [|pid master|] eqn:Ho; [| |done].
  - by rewrite (run_forkpty_error _ _ _ _ _ _ Ho Hm).
  - rewrite (run_forkpty_parent _ _ _ _ _ _ _ _ Ho Hm).
    destruct (Z.ltb_spec pid 0); [lia|]. destruct (Z.eqb_spec pid 0); [lia|].
    cbn [fst snd environ sigtable atexit_fns children ptys].
    repeat (split; [done|]). split; [apply union_subseteq_r|]. split; [|done].
    intros fd Hfd. rewrite lookup_insert_ne; [done|].
    intros ->. by apply (Hfd pid).
Qed.

Lemma kobold_forkpty_parent_frame_witness :
  sigtable (run_state (Oracle (ForkptyParent 4242 5) true)
                      (kobold_forkpty 0 "/bin/zsh" 24 80) proc0)
  = sigtable proc0.
Proof.
  assert (forkpty_contract (Oracle (ForkptyParent 4242 5) true)) as Hc
    by (unfold forkpty_contract; simpl; lia).
  assert (o_forkpty (Oracle (ForkptyParent 4242 5) true) <> ForkptyChild) as Hp
    by discriminate.
  exact (proj1 (proj2 (kobold_forkpty_parent_frame
                         (Oracle (ForkptyParent 4242 5) true)
                         0 "/bin/zsh" 24 80 proc0 Hc Hp eq_refl))).
Defined.

(** X8. With the child reaper installed before the spawn: in the parent
    [SIGCHLD] still has [sigchld_handler] after [kobold_forkpty]; in the
    child it has the default action when the shell is started, so the shell
    does not inherit the reaper. *)
Theorem reaper_across_spawn o o' child_pid shell_path rows cols st :
  forkpty_contract o -> pty_mutex st = false ->
  (o_forkpty o <> ForkptyChild ->
   sigtable (run_state o (kobold_forkpty child_pid shell_path rows cols)
               (run_state o' kobold_init_signal_handlers st)) !! SIGCHLD
   = Some (Sigaction_t (SIG_FN sigchld_handler) ∅ (Z.lor SA_RESTART SA_NOCLDSTOP)))
  /\ (o_forkpty o = ForkptyChild ->
      sigtable (run_state o (kobold_forkpty child_pid shell_path rows cols)
                  (run_state o' kobold_init_signal_handlers st)) !! SIGCHLD
      = Some (Sigaction_t SIG_DFL ∅ 0)).
Proof.
  intros Hc Hm.
  assert (pty_mutex (run_state o' kobold_init_signal_handlers st) = false) as Hm'.
  { unfold run_state. rewrite run_init_signal_handlers. by destruct st. }
  split; intros Ho.
  - destruct (kobold_forkpty_parent_frame o child_pid shell_path rows cols _
                Hc Ho Hm') as (_ & -> & _).
    unfold run_state. rewrite run_init_signal_handlers.
    cbn [fst snd set_sigtable sigtable]. by rewrite lookup_insert_eq.
  - unfold run_state at 1.
    rewrite (run_forkpty_child _ _ _ _ _ _ Ho Hm'). cbn [fst snd sigtable].
    by rewrite child_sigtable_lookup.
Qed.

Lemma reaper_across_spawn_witness :
  sigtable (run_state (Oracle ForkptyChild true)
              (kobold_forkpty 0 "/bin/zsh" 24 80)
              (run_state (Oracle ForkptyChild true)
                 kobold_init_signal_handlers proc0)) !! SIGCHLD
  = Some (Sigaction_t SIG_DFL ∅ 0).
Proof.
  exact (proj2 (reaper_across_spawn (Oracle ForkptyChild true)
                  (Oracle ForkptyChild true) 0 "/bin/zsh" 24 80 proc0 I eq_refl)
               eq_refl).
Defined.

(** ** More on resizing *)

(** X9. A descriptor that [kobold_forkpty] returned (not the -1 of a
    failure) names a PTY with the window size asked for at the spawn; a
    later [kobold_pty_resize] on it returns 0 and the PTY then has the new
    size. *)
Theorem resize_after_spawn o o' child_pid shell_path rows cols rows' cols'
    master pid st :
  pty_mutex st = false ->
  run_outcome o (kobold_forkpty child_pid shell_path rows cols) st
    = Returned (master, pid) ->
  0 <= master ->
  ptys (run_state o (kobold_forkpty child_pid shell_path rows cols) st) !! master
    = Some (Winsize (to_ushort rows) (to_ushort cols) 0 0)
  /\ run_outcome o' (kobold_pty_resize master rows' cols')
       (run_state o (kobold_forkpty child_pid shell_path rows cols) st)
     = Returned 0
  /\ ptys (run_state o' (kobold_pty_resize master rows' cols')
             (run_state o (kobold_forkpty child_pid shell_path rows cols) st))
       !! master
     = Some (Winsize (to_ushort rows') (to_ushort cols') 0 0).
Proof.
  intros Hm Hout Hmaster. unfold run_outcome, run_state in *.
  destruct (o_forkpty o) as [|p m|] eqn:Ho.
  - rewrite (run_forkpty_error _ _ _ _ _ _ Ho Hm) in Hout.
    injection Hout as <- _. lia.
  - rewrite (run_forkpty_parent _ _ _ _ _ _ _ _ Ho Hm) in Hout |- *.
    destruct (Z.ltb_spec p 0); [injection Hout as <- _; lia|].
    destruct (Z.eqb_spec p 0); [discriminate Hout|].
    injection Hout as -> ->. cbn [fst snd ptys].
    rewrite run_resize by done. cbn [ptys].
    rewrite bool_decide_eq_true_2 by (by rewrite lookup_insert_eq).
    cbn [fst snd set_ptys ptys]. by rewrite !lookup_insert_eq.
  - by rewrite (run_forkpty_child _ _ _ _ _ _ Ho Hm) in Hout.
Qed.

Lemma resize_after_spawn_witness :
  run_outcome (Oracle ForkptyError true) (kobold_pty_resize 5 40 132)
    (run_state (Oracle (ForkptyParent 4242 5) true)
               (kobold_forkpty 0 "/bin/zsh" 24 80) proc0)
  = Returned 0.
Proof.
  assert (0 <= 5) as H5 by lia.
  exact (proj1 (proj2 (resize_after_spawn (Oracle (ForkptyParent 4242 5) true)
                         (Oracle ForkptyError true) 0 "/bin/zsh" 24 80 40 132
                         5 4242 proc0 eq_refl eq_refl H5))).
Defined.

(** X10. Of two [kobold_pty_resize] calls on the same descriptor the later
    one decides: the state after both is the state after the second alone,
    and the second returns what the first returned (both 0 or both -1). In
    particular repeating a resize changes nothing. *)
Theorem kobold_pty_resize_last_wins o master_fd rows1 cols1 rows2 cols2 st :
  pty_mutex st = false ->
  run_state o (kobold_pty_resize master_fd rows2 cols2)
    (run_state o (kobold_pty_resize master_fd rows1 cols1) st)
  = run_state o (kobold_pty_resize master_fd rows2 cols2) st
  /\ run_outcome o (kobold_pty_resize master_fd rows2 cols2)
       (run_state o (kobold_pty_resize master_fd rows1 cols1) st)
     = run_outcome o (kobold_pty_resize master_fd rows1 cols1) st.
Proof.
  intros Hm. unfold run_state, run_outcome.
  rewrite (run_resize o master_fd rows1 cols1 st Hm).
  rewrite (run_resize o master_fd rows2 cols2 st Hm).
  case_bool_decide as Hfd; cbn [fst snd].
  - rewrite run_resize by (by destruct st). cbn [set_ptys ptys].
    rewrite bool_decide_eq_true_2 by (by rewrite lookup_insert_eq).
    cbn [fst snd]. destruct st; cbn [set_ptys ptys pty_mutex environ sigtable
                                     children atexit_fns].
    by rewrite insert_insert_eq.
  - rewrite run_resize by done. by rewrite bool_decide_eq_false_2.
Qed.

Lemma kobold_pty_resize_last_wins_witness :
  run_state (Oracle ForkptyError true) (kobold_pty_resize 5 40 132)
    (run_state (Oracle ForkptyError true) (kobold_pty_resize 5 24 80)
       (set_ptys proc0 {[ 5 := Winsize 1 1 0 0 ]}))
  = run_state (Oracle ForkptyError true) (kobold_pty_resize 5 40 132)
      (set_ptys proc0 {[ 5 := Winsize 1 1 0 0 ]}).
Proof.
  exact (proj1 (kobold_pty_resize_last_wins (Oracle ForkptyError true) 5
                  24 80 40 132 (set_ptys proc0 {[ 5 := Winsize 1 1 0 0 ]})
                  eq_refl)).
Defined.



(** ** No deadlock *)

Lemma host_live_bind {A B : Type} (p : prog A) (k : A -> prog B) :
  host_live p -> (forall a, host_live (k a)) -> host_live (p ≫= k).
Proof.
  intros Hp Hk. induction p as [a|c kk IH].
  - rewrite bind_ret. apply Hk.
  - destruct Hp as [Hc Hx]. rewrite bind_call. split; [exact Hc|].
    intros x Hr. apply IH, Hx, Hr.
Qed.

Lemma kobold_forkpty_host_live child_pid shell_path rows cols :
  host_live (kobold_forkpty child_pid shell_path rows cols).
Proof.
  unfold kobold_forkpty. split; [reflexivity|]. intros [] _.
  split; [reflexivity|]. intros [pid master] Hpid. cbn -[Z.ltb Z.eqb] in *.
  destruct (pid <? 0); [by repeat split|].
  destruct (Z.eqb_spec pid 0); [done|]. by repeat split.
Qed.

Lemma kobold_pty_resize_host_live master_fd rows cols :
  host_live (kobold_pty_resize master_fd rows cols).
Proof.
  unfold kobold_pty_resize. split; [reflexivity|]. intros [] _.
  split; [reflexivity|]. intros r _. cbn -[Z.ltb].
  destruct (r <? 0); by repeat split.
Qed.

Lemma bridge_client_host_live {R : Type} (p : prog R) :
  Threads.bridge_client p -> host_live p.
Proof.
  induction 1 as [r|cp path rows cols k _ IH|fd rows cols k _ IH|k _ IH].
  - exact I.
  - apply host_live_bind; [apply kobold_forkpty_host_live|exact IH].
  - apply host_live_bind; [apply kobold_pty_resize_host_live|exact IH].
  - apply host_live_bind; [by repeat split|exact IH].
Qed.

Lemma initial_sound {R : Type} (ths : list (prog R)) :
  (forall t p, ths !! t = Some p -> Threads.bridge_client p) ->
  sound (Threads.Config None ths).
Proof.
  intros Hcl. split; [by apply initial_consistent|]. split; [done|].
  intros t p Ht. by eapply bridge_client_host_live, Hcl.
Qed.

Lemma step_sound {R : Type} (cfg cfg' : Threads.config R) ev :
  Threads.step cfg ev cfg' -> sound cfg -> sound cfg'.
Proof.
  intros Hstep (Hc & Ho & Hl).
  split; [by eapply step_consistent|].
  destruct Hstep as [t k ths Ht|t k ths Ht|t c k x h ths Ht Hm Hx];
    cbn [Threads.owner Threads.pool] in *.
  - split.
    + intros t' [= <-]. rewrite list_lookup_insert_eq by (by eapply lookup_lt_Some).
      by eexists.
    + intros t' p Hp. destruct (decide (t = t')) as [<-|Hne].
      * rewrite list_lookup_insert_eq in Hp by (by eapply lookup_lt_Some).
        injection Hp as <-. by apply (Hl _ _ Ht).
      * rewrite list_lookup_insert_ne in Hp by done. by eapply Hl.
  - split; [done|].
    intros t' p Hp. destruct (decide (t = t')) as [<-|Hne].
    + rewrite list_lookup_insert_eq in Hp by (by eapply lookup_lt_Some).
      injection Hp as <-. by apply (Hl _ _ Ht).
    + rewrite list_lookup_insert_ne in Hp by done. by eapply Hl.
  - split.
    + intros t' Ht'. destruct (Ho _ Ht') as [q Hq].
      destruct (decide (t = t')) as [<-|Hne].
      * rewrite list_lookup_insert_eq by (by eapply lookup_lt_Some). by eexists.
      * rewrite list_lookup_insert_ne by done. by eexists.
    + intros t' p Hp. destruct (decide (t = t')) as [<-|Hne].
      * rewrite list_lookup_insert_eq in Hp by (by eapply lookup_lt_Some).
        injection Hp as <-. by apply (Hl _ _ Ht).
      * rewrite list_lookup_insert_ne in Hp by done. by eapply Hl.
Qed.

Lemma steps_sound {R : Type} (cfg cfg' : Threads.config R) tr :
  Threads.steps cfg tr cfg' -> sound cfg -> sound cfg'.
Proof.
  induction 1 as [cfg|cfg1 ev cfg2 tr cfg3 Hstep _ IH]; [done|].
  intros Hs. by eapply IH, step_sound.
Qed.

(** A thread that holds the mutex can take its next step. *)
Lemma owner_can_step {R : Type} (cfg : Threads.config R) (t : Threads.tid) :
  sound cfg -> Threads.owner cfg = Some t ->
  exists c cfg', Threads.step cfg (t, c) cfg'.
Proof.
  intros (Hc & Ho & _) Ht. destruct (Ho _ Ht) as [p Hp].
  pose proof (Hc _ _ Hp) as Hw. rewrite bool_decide_eq_true_2 in Hw by done.
  destruct cfg as [h ths]. cbn [Threads.owner Threads.pool] in *. subst h.
  destruct p as [r|c k]; [done|]. destruct Hw as [Hg _].
  destruct c as [| |winp|name value overwrite|signo act|path argv|status|fd ws];
    cbn in Hg; try done.
  - eexists _, _. by eapply Threads.step_unlock.
  - eexists _, _. by eapply (Threads.step_call t (Forkpty winp) k (1, None)).
  - eexists _, _.
    by eapply (Threads.step_call t (Setenv name value overwrite) k 0).
  - eexists _, _. by eapply (Threads.step_call t (Sigaction signo act) k 0).
  - eexists _, _. by eapply (Threads.step_call t (Ioctl_TIOCSWINSZ fd ws) k 0).
Qed.

(** X12. Threads of the host process that call the functions of the bridge
    never deadlock on [pty_mutex]: however far their steps have interleaved,
    a thread that holds the mutex can take its next step, and while some
    thread has a call left to make, some thread can move. *)
Theorem bridge_threads_never_deadlock {R : Type} (ths : list (prog R))
    (tr : list (Threads.tid * syscall)) (cfg : Threads.config R) :
  (forall t p, ths !! t = Some p -> Threads.bridge_client p) ->
  Threads.steps (Threads.Config None ths) tr cfg ->
  (forall t, Threads.owner cfg = Some t ->
             exists c cfg', Threads.step cfg (t, c) cfg')
  /\ ((exists t c k, Threads.pool cfg !! t = Some (Call c k)) ->
      exists ev cfg', Threads.step cfg ev cfg').
Proof.
  intros Hcl Hsteps.
  pose proof (steps_sound _ _ _ Hsteps (initial_sound _ Hcl)) as Hs.
  split; [intros t Ht; by apply owner_can_step|].
  intros (t & c & k & Ht).
  destruct (Threads.owner cfg) as [t'|] eqn:Ho.
  - destruct (owner_can_step cfg t' Hs Ho) as (c' & cfg' & Hstep). by eexists _, _.
  - destruct Hs as (Hc & _ & Hl).
    pose proof (Hc _ _ Ht) as Hw. rewrite Ho in Hw.
    rewrite bool_decide_eq_false_2 in Hw by done.
    destruct (Hl _ _ Ht) as [Hleave _]. destruct Hw as [Hg _].
    destruct cfg as [h ths']. cbn [Threads.owner Threads.pool] in *. subst h.
    destruct c as [| |winp|name value overwrite|signo act|path argv|status|fd ws];
      cbn in Hg, Hleave; try done.
    + eexists _, _. by eapply Threads.step_lock.
    + eexists _, _.
      by eapply (Threads.step_call t (Setenv name value overwrite) k 0).
    + eexists _, _. by eapply (Threads.step_call t (Sigaction signo act) k 0).
Qed.

Lemma bridge_threads_never_deadlock_witness :
  exists cfg ev cfg',
    Threads.steps (Threads.Config None two_threads)
      [(1%nat, Pthread_mutex_lock)] cfg
    /\ Threads.step cfg ev cfg'.
Proof.
  assert (forall t p, two_threads !! t = Some p -> Threads.bridge_client p) as Hcl.
  { intros [|[|t]] p Hp; [..|discriminate]; injection Hp as <-.
    - apply Threads.client_forkpty. intros r. apply Threads.client_ret.
    - apply Threads.client_resize. intros r. apply Threads.client_ret. }
  assert (exists cfg,
             Threads.steps (Threads.Config None two_threads)
               [(1%nat, Pthread_mutex_lock)] cfg
             /\ exists t c k, Threads.pool cfg !! t = Some (Call c k))
    as (cfg & Hsteps & Hcall).
  { eexists. split.
    - eapply Threads.steps_cons; [|apply Threads.steps_nil].
      eapply (Threads.step_lock 1%nat). reflexivity.
    - exists 1%nat. eexists _, _. reflexivity. }
  destruct (proj2 (bridge_threads_never_deadlock two_threads _ _ Hcl Hsteps) Hcall)
    as (ev & cfg' & Hstep).
  by exists cfg, ev, cfg'.
Defined.

(** ** Sizes in and out of range *)

(** X13. After a successful [kobold_pty_resize] the PTY has the row and
    column counts that were asked for exactly when both are between 0 and
    65535; a count outside that range is replaced by another one. *)
Theorem kobold_pty_resize_exact_iff_in_range o master_fd rows cols st :
  pty_mutex st = false -> is_Some (ptys st !! master_fd) ->
  exists ws,
    ptys (run_state o (kobold_pty_resize master_fd rows cols) st) !! master_fd
      = Some ws
    /\ (ws_row ws = rows <-> 0 <= rows < 65536)
    /\ (ws_col ws = cols <-> 0 <= cols < 65536)
    /\ 0 <= ws_row ws < 65536 /\ 0 <= ws_col ws < 65536.
Proof.
  intros Hm Hfd. unfold run_state. rewrite (run_resize _ _ _ _ _ Hm).
  rewrite bool_decide_eq_true_2 by done. cbn [fst snd set_ptys ptys].
  exists (winsize_arg rows cols). rewrite lookup_insert_eq.
  cbn [winsize_arg ws_row ws_col].
  pose proof (to_ushort_range rows). pose proof (to_ushort_range cols).
  split; [done|].
  split; [split; [intros <-; done|apply to_ushort_small]|].
  split; [split; [intros <-; done|apply to_ushort_small]|done].
Qed.

Lemma kobold_pty_resize_exact_iff_in_range_witness :
  exists ws,
    ptys (run_state (Oracle ForkptyError true) (kobold_pty_resize 5 (-1) 65536)
            (set_ptys proc0 {[ 5 := Winsize 24 80 0 0 ]})) !! 5
      = Some ws
    /\ (ws_row ws = -1 <-> 0 <= -1 < 65536)
    /\ (ws_col ws = 65536 <-> 0 <= 65536 < 65536)
    /\ 0 <= ws_row ws < 65536 /\ 0 <= ws_col ws < 65536.
Proof.
  apply (kobold_pty_resize_exact_iff_in_range (Oracle ForkptyError true) 5
           (-1) 65536 (set_ptys proc0 {[ 5 := Winsize 24 80 0 0 ]}));
    [reflexivity|by eexists].
Defined.

(** ** Spawning and reaping *)

(** X14. A child that [kobold_forkpty] made and that has terminated is
    reaped by [sigchld_handler]: the process then has the children it had
    before the spawn. The master descriptor of that child is not closed by
    the reaper: it stays open, with its window size, until the caller closes
    it. *)
Theorem spawn_then_reap o child_pid shell_path rows cols master pid sig st :
  pty_mutex st = false ->
  o_forkpty o = ForkptyParent pid master -> 0 < pid -> pid ∉ children st ->
  exists st' r,
    Reaper.sigchld_handler 2 sig
      (Reaper.Host (run_state o (kobold_forkpty child_pid shell_path rows cols) st)
                   [pid])
    = Some (Reaper.Host st' [], [pid; r])
    /\ r <= 0
    /\ children st' = children st
    /\ ptys st' !! master = Some (Winsize (to_ushort rows) (to_ushort cols) 0 0)
    /\ environ st' = environ st /\ sigtable st' = sigtable st.
Proof.
  intros Hm Ho Hpid Hfresh.
  assert (Forall (fun z => 0 < z) [pid]) as Hpos by (by repeat constructor).
  destruct (sigchld_handler_reaps_all 2 sig
              (run_state o (kobold_forkpty child_pid shell_path rows cols) st)
              [pid] Hpos) as [Hrun _]; [simpl; lia|].
  eexists _, _. split; [exact Hrun|].
  unfold run_state. rewrite (run_forkpty_parent _ _ _ _ _ _ _ _ Ho Hm).
  destruct (Z.ltb_spec pid 0); [lia|]. destruct (Z.eqb_spec pid 0); [lia|].
  cbn [fst snd set_children children ptys environ sigtable list_to_set].
  split.
  { match goal with |- context [decide ?P] => destruct (decide P) end; lia. }
  split.
  - apply leibniz_equiv. intros x.
    rewrite elem_of_difference, !elem_of_union, elem_of_empty, !elem_of_singleton.
    split; [tauto|]. intros Hx. split; [tauto|]. intros [->|[]]. done.
  - split; [by rewrite lookup_insert_eq|done].
Qed.

Lemma spawn_then_reap_witness :
  exists st' r,
    Reaper.sigchld_handler 2 20
      (Reaper.Host (run_state (Oracle (ForkptyParent 4242 5) true)
                              (kobold_forkpty 0 "/bin/zsh" 24 80) proc0)
                   [4242])
    = Some (Reaper.Host st' [], [4242; r])
    /\ r <= 0
    /\ children st' = children proc0
    /\ ptys st' !! 5 = Some (Winsize (to_ushort 24) (to_ushort 80) 0 0)
    /\ environ st' = environ proc0 /\ sigtable st' = sigtable proc0.
Proof.
  apply (spawn_then_reap (Oracle (ForkptyParent 4242 5) true) 0 "/bin/zsh"
           24 80 5 4242 20 proc0); [reflexivity|reflexivity|lia|].
  apply not_elem_of_empty.
Defined.
